(** * bettertls: the Go x509 test runner (testsuites/go_x509.go)

    A shallow embedding of the expectation evaluator, the per-test body of
    [worker], the dispatcher of [runTests], [failureCounter] and [main],
    with the goroutines and channels of [runTests] as a labelled
    transition system. *)

From Stdlib Require Import List String Ascii Bool Arith ZArith Lia Permutation.
From Stdlib Require Import DecimalString DecimalPos DecimalZ.
Import ListNotations.

Local Open Scope string_scope.
Local Open Scope list_scope.

(** ** Errors

    Every [error] value the program builds itself, one constructor per
    construction site; errors coming out of the platform (file reading, PEM
    and certificate parsing, [Certificate.Verify]) are [PlatformError]. *)

Inductive error : Type :=
| ErrUnknownExpectedResult (result : string)
    (* fmt.Errorf("unknown expected result %q", test.DNS.Result) *)
| ErrWeakOKWithoutDescription
    (* errors.New("Weak-OK without description") *)
| ErrUnknownDescription (desc : string)
    (* fmt.Errorf("unknown description for weak-OK: %q", desc) *)
| ErrSingleCertificate (found : nat)
    (* fmt.Errorf("expected a single certificate in the .crt file, but found %d", len(leaf)) *)
| ErrSingleRoot (found : nat)
    (* fmt.Errorf("Expected a single root in 'root.pem' but found %d", len(rootChain)) *)
| ErrFailed (numFailures total : nat)
    (* fmt.Errorf("failed %d of %d tests", numFailures, len(expectations.Expects)) *)
| PlatformError (msg : string).

(** ** Data model *)

Module expectedResult.
Record t : Type := mk {
  Result : string;
  Descriptions : list string
}.
End expectedResult.

Record configFile : Type := mkConfigFile {
  IPAddr : string;     (* field IP of configFile *)
  Hostname : string
}.

Record expectation : Type := mkExpectation {
  Id : Z;
  IP : expectedResult.t;
  DNS : expectedResult.t;
  Descriptions : list string;
  testDNS : bool;
  err : option error
}.

Definition setTestDNS (b : bool) (e : expectation) : expectation :=
  mkExpectation (Id e) (IP e) (DNS e) (Descriptions e) b (err e).

Definition setErr (x : error) (e : expectation) : expectation :=
  mkExpectation (Id e) (IP e) (DNS e) (Descriptions e) (testDNS e) (Some x).

(** [(e *expectation) descriptions()] *)
Definition descriptions (e : expectation) : list string :=
  Descriptions e ++
  (if testDNS e then expectedResult.Descriptions (DNS e)
   else expectedResult.Descriptions (IP e)).

(** ** The description strings of [worker] *)

Definition cnWithSANs : string :=
  "The DNS name for this certificate exists in the common name but not in the Subject Alternate Names extension even though the extension is specified. Most implementations will fail DNS-hostname validation on this certificate.".
Definition dnsInCNViolation : string :=
  "The DNS name in the common name violates a name constraint. Because there is a SAN extension, this might be ignored.".
Definition forbiddenIPAddressPresent : string :=
  "Althought the IP address is not the subject name in question, it's name constraint violation may still cause this certificate to be rejected.".
Definition ipInCNViolation : string :=
  "The IP in the common name violates a name constraint. Because there is a SAN extension, this might be ignored.".
Definition ipViolation : string :=
  "The IP in the SAN extension violates a name constraint.".
Definition noIPGiven : string :=
  "There is a IP name constraint but no IP in the certificate. This isn't an explicit violation, but some implementations will fail to validate the certificate.".

(** The first arm of [switch desc]: the descriptions that leave the test
    expected to pass. *)
Definition nonFatal (desc : string) : bool :=
  (desc =? forbiddenIPAddressPresent) || (desc =? noIPGiven) ||
  (desc =? ipViolation) || (desc =? ipInCNViolation) ||
  (desc =? dnsInCNViolation).

(** The second arm of [switch desc]. *)
Definition fatal (desc : string) : bool := desc =? cnWithSANs.

Definition recognized (desc : string) : bool := nonFatal desc || fatal desc.

(** ** The expectation evaluator

    The loop labelled [Descriptions] of [worker]: [shouldFail] is the
    variable of that name, [inl] is the [continue NextTest] of the default
    arm, the fatal arm leaves the loop at once. *)
Fixpoint scanDescriptions (descs : list string) (shouldFail : bool) : error + bool :=
  match descs with
  | [] => inr shouldFail
  | desc :: rest =>
      if nonFatal desc then scanDescriptions rest false
      else if fatal desc then inr true
      else inl (ErrUnknownDescription desc)
  end.

(** [switch test.DNS.Result] of [worker], as a function of the result code
    and of [test.descriptions()]: [inr shouldFail], or [inl] the error that
    is stored in [test.err] before the test is sent to [failures]. *)
Definition evalExpected (result : string) (descs : list string) : error + bool :=
  if result =? "ERROR" then inr true
  else if result =? "OK" then inr false
  else if result =? "WEAK-OK" then
    if Nat.eqb (List.length descs) 0 then inl ErrWeakOKWithoutDescription
    else scanDescriptions descs false
  else inl (ErrUnknownExpectedResult result).

(** Verification must succeed exactly when [shouldFail] is false. *)
Definition mustSucceed (result : string) (descs : list string) : error + bool :=
  match evalExpected result descs with
  | inl e => inl e
  | inr shouldFail => inr (negb shouldFail)
  end.

(** ** The platform

    What the program takes from the Go runtime and standard library:
    certificates and their verification, files, JSON decoding and the [%q]
    verb of [fmt] ([strconv.Quote]). The runner is verified for every
    platform; [readPEMChain] is used only through its result. *)

Class Platform : Type := {
  Certificate : Type;
  (* readPEMChain(path): the certificates of a PEM file, or an error *)
  readPEMChain : string -> error + list Certificate;
  (* leaf.Verify(opts) with Roots, Intermediates and DNSName: its error *)
  Verify : Certificate -> list Certificate -> list Certificate -> string -> option error;
  (* ioutil.ReadFile *)
  ReadFile : string -> error + string;
  (* json.Unmarshal into a *configFile and into an *expectations *)
  unmarshalConfig : string -> error + configFile;
  unmarshalExpectations : string -> error + list expectation;
  (* strconv.Quote, the rendering of a string under %q *)
  Quote : string -> string
}.

(** strconv.Itoa and the [%d] verb. *)
Definition Itoa (n : Z) : string := NilZero.string_of_int (Z.to_int n).

(** filepath.Join on elements that are already clean, as all its
    arguments in this program are. *)
Definition Join (elems : list string) : string := String.concat "/" elems.

Definition baseDir : string := "..".

Definition newline : string := String (ascii_of_nat 10) EmptyString.

Section Runner.
Context `{Platform}.

(** [err.Error()] *)
Definition Error (e : error) : string :=
  match e with
  | ErrUnknownExpectedResult result => "unknown expected result " ++ Quote result
  | ErrWeakOKWithoutDescription => "Weak-OK without description"
  | ErrUnknownDescription desc => "unknown description for weak-OK: " ++ Quote desc
  | ErrSingleCertificate found =>
      "expected a single certificate in the .crt file, but found " ++ Itoa (Z.of_nat found)
  | ErrSingleRoot found =>
      "Expected a single root in 'root.pem' but found " ++ Itoa (Z.of_nat found)
  | ErrFailed numFailures total =>
      "failed " ++ Itoa (Z.of_nat numFailures) ++ " of " ++ Itoa (Z.of_nat total) ++ " tests"
  | PlatformError msg => msg
  end.

Definition loadRoot : error + Certificate :=
  match readPEMChain (Join [baseDir; "certificates"; "root.crt"]) with
  | inl e => inl e
  | inr rootChain =>
      match rootChain with
      | [root] => inr root
      | _ => inl (ErrSingleRoot (List.length rootChain))
      end
  end.

Definition loadConfig : error + configFile :=
  match ReadFile (Join [baseDir; "config.json"]) with
  | inl e => inl e
  | inr configBytes => unmarshalConfig configBytes
  end.

Definition loadExpectations : error + list expectation :=
  match ReadFile (Join [baseDir; "html"; "expects.json"]) with
  | inl e => inl e
  | inr expectsBytes => unmarshalExpectations expectsBytes
  end.

(** ** One iteration of the loop [NextTest] of [worker]

    [Some f]: the test [f] is sent to [failures]; [None]: nothing is. *)
Definition runTest (config : configFile) (root : Certificate) (test : expectation)
  : option expectation :=
  if negb (testDNS test) then None
  else
    match readPEMChain (Join [baseDir; "certificates"; (Itoa (Id test) ++ ".chain")%string]) with
    | inl e => Some (setErr e test)
    | inr chain =>
        match readPEMChain (Join [baseDir; "certificates"; (Itoa (Id test) ++ ".crt")%string]) with
        | inl e => Some (setErr e test)
        | inr leaf =>
            match leaf with
            | [leaf0] =>
                match evalExpected (expectedResult.Result (DNS test)) (descriptions test) with
                | inl e => Some (setErr e test)
                | inr shouldFail =>
                    match Verify leaf0 [root] chain (Hostname config), shouldFail with
                    | None, true => Some test
                    | Some _, true => None
                    | Some e, false => Some (setErr e test)
                    | None, false => None
                    end
                end
            | _ => Some (setErr (ErrSingleCertificate (List.length leaf)) test)
            end
        end
    end.

(** ** [failureCounter]'s output for one failure

    [fmt.Printf("#%d: failed for %s:\n  %q\n  %q\n", failure.Id, testType,
    failure.err, strings.Join(failure.descriptions(), " "))]. Under [%q] a nil
    error prints as [%!q(<nil>)]. *)
Definition testType (failure : expectation) : string :=
  if testDNS failure then "DNS" else "IP".

Definition quoteErr (e : option error) : string :=
  match e with
  | Some x => Quote (Error x)
  | None => "%!q(<nil>)"
  end.

Definition failureReport (failure : expectation) : string :=
  "#" ++ Itoa (Id failure) ++ ": failed for " ++ testType failure ++ ":" ++ newline ++
  "  " ++ quoteErr (err failure) ++ newline ++
  "  " ++ Quote (String.concat " " (descriptions failure)) ++ newline.

End Runner.

(** ** Channels

    A buffered channel of [expectation]s: its queue and whether [close] was
    called. The capacity is given at each [send], as the two channels of
    [runTests] share one ([numWorkers]). *)

Record chan : Type := mkChan {
  buf : list expectation;
  closed : bool
}.

Definition emptyChan : chan := mkChan [] false.

(** [c <- x]: [None] when the sender cannot proceed (the buffer is full; on
    a closed channel Go panics, which [runTests] never does, see
    [send_never_on_closed]). *)
Definition send (cap : nat) (x : expectation) (c : chan) : option chan :=
  if closed c then None
  else if Nat.ltb (List.length (buf c)) cap then Some (mkChan (buf c ++ [x]) false)
  else None.

(** One receive of [for x := range c]: [Some (Some x, c')] delivers [x],
    [Some (None, c)] ends the loop (closed and drained), [None] blocks. *)
Definition recv (c : chan) : option (option expectation * chan) :=
  match buf c with
  | x :: rest => Some (Some x, mkChan rest (closed c))
  | [] => if closed c then Some (None, c) else None
  end.

Definition close (c : chan) : chan := mkChan (buf c) true.

(** ** The goroutines of [runTests] *)

(** [runTests] from the dispatch loop on. *)
Inductive mainPC : Type :=
| MSend (pending : list expectation)  (* in the loop, these sends on work left *)
| MWait                               (* at wg.Wait() *)
| MCloseFailures                      (* at close(failures) *)
| MRecvCount                          (* at numFailures := <-failureCount *)
| MReturned (numFailures : nat).

(** [worker]. *)
Inductive workerPC : Type :=
| WRange                        (* at for test := range work *)
| WRun (test : expectation)     (* in the loop body, test in hand *)
| WSend (test : expectation)    (* at failures <- test *)
| WDone.                        (* returned; wg.Done() has run *)

(** [failureCounter]. *)
Inductive counterPC : Type :=
| CRange (num : nat)   (* at for failure := range failures *)
| CCount (num : nat)   (* at count <- num *)
| CReturned.

Record state : Type := mkState {
  mainG : mainPC;
  workers : list workerPC;
  counterG : counterPC;
  work : chan;
  failures : chan
}.

Inductive goroutine : Type :=
| GMain
| GWorker (i : nat)
| GCounter.

(** What a step does to the world outside the goroutine that takes it. *)
Inductive event : Type :=
| EvSendWork (test : expectation)
| EvCloseWork
| EvRecvWork (i : nat) (test : expectation)
| EvRunTest (i : nat) (test : expectation)   (* the loop body up to its send *)
| EvSendFailure (i : nat) (test : expectation)
| EvWorkerDone (i : nat)
| EvWaitDone
| EvCloseFailures
| EvPrintf (failure : expectation)   (* failureCounter: num++ and the Printf *)
| EvRangeEnd                         (* failureCounter leaves its loop *)
| EvCount (num : nat).               (* count <- num meets <-failureCount *)

(** The trials of the dispatch loop of [runTests], in the order sent: each
    expectation with [testDNS = false], then with [testDNS = true]. *)
Definition dispatch (expects : list expectation) : list expectation :=
  flat_map (fun e => [setTestDNS false e; setTestDNS true e]) expects.

Fixpoint update {A : Type} (i : nat) (x : A) (l : list A) : list A :=
  match l, i with
  | [], _ => []
  | _ :: l', O => x :: l'
  | y :: l', S i' => y :: update i' x l'
  end.

Definition isDone (pc : workerPC) : bool :=
  match pc with WDone => true | _ => false end.

Section Scheduler.
Context `{Platform}.
Variable numWorkers : nat.
Variable config : configFile.
Variable root : Certificate.

(** The state once [runTests] has started its goroutines. *)
Definition init (expects : list expectation) : state :=
  mkState (MSend (dispatch expects)) (repeat WRange numWorkers) (CRange 0)
          emptyChan emptyChan.

Definition stepMain (s : state) : option (list event * state) :=
  match mainG s with
  | MSend (test :: rest) =>
      match send numWorkers test (work s) with
      | Some c =>
          Some ([EvSendWork test],
                mkState (MSend rest) (workers s) (counterG s) c (failures s))
      | None => None
      end
  | MSend [] =>
      Some ([EvCloseWork],
            mkState MWait (workers s) (counterG s) (close (work s)) (failures s))
  | MWait =>
      if forallb isDone (workers s)
      then Some ([EvWaitDone],
                 mkState MCloseFailures (workers s) (counterG s) (work s) (failures s))
      else None
  | MCloseFailures =>
      Some ([EvCloseFailures],
            mkState MRecvCount (workers s) (counterG s) (work s) (close (failures s)))
  | MRecvCount => None   (* failureCount is unbuffered: see stepCounter *)
  | MReturned _ => None
  end.

Definition stepWorker (i : nat) (s : state) : option (list event * state) :=
  match nth_error (workers s) i with
  | Some WRange =>
      match recv (work s) with
      | Some (Some test, c) =>
          Some ([EvRecvWork i test],
                mkState (mainG s) (update i (WRun test) (workers s)) (counterG s)
                        c (failures s))
      | Some (None, _) =>
          Some ([EvWorkerDone i],
                mkState (mainG s) (update i WDone (workers s)) (counterG s)
                        (work s) (failures s))
      | None => None
      end
  | Some (WRun test) =>
      let pc := match runTest config root test with
                | Some f => WSend f
                | None => WRange
                end in
      Some ([EvRunTest i test],
            mkState (mainG s) (update i pc (workers s)) (counterG s)
                    (work s) (failures s))
  | Some (WSend f) =>
      match send numWorkers f (failures s) with
      | Some c =>
          Some ([EvSendFailure i f],
                mkState (mainG s) (update i WRange (workers s)) (counterG s) (work s) c)
      | None => None
      end
  | Some WDone => None
  | None => None
  end.

Definition stepCounter (s : state) : option (list event * state) :=
  match counterG s with
  | CRange num =>
      match recv (failures s) with
      | Some (Some failure, c) =>
          Some ([EvPrintf failure],
                mkState (mainG s) (workers s) (CRange (S num)) (work s) c)
      | Some (None, _) =>
          Some ([EvRangeEnd],
                mkState (mainG s) (workers s) (CCount num) (work s) (failures s))
      | None => None
      end
  | CCount num =>
      match mainG s with
      | MRecvCount =>
          Some ([EvCount num],
                mkState (MReturned num) (workers s) CReturned (work s) (failures s))
      | _ => None
      end
  | CReturned => None
  end.

(** One step of the goroutine the scheduler picks; [None] when it is
    blocked or has returned. *)
Definition step (g : goroutine) (s : state) : option (list event * state) :=
  match g with
  | GMain => stepMain s
  | GWorker i => stepWorker i s
  | GCounter => stepCounter s
  end.

(** A schedule, run from [s]: the events in order and the state reached, or
    [None] when the schedule picks a goroutine that cannot step. *)
Fixpoint run (sched : list goroutine) (s : state) : option (list event * state) :=
  match sched with
  | [] => Some ([], s)
  | g :: rest =>
      match step g s with
      | None => None
      | Some (evs, s') =>
          match run rest s' with
          | None => None
          | Some (evs', s'') => Some (evs ++ evs', s'')
          end
      end
  end.

End Scheduler.

(** ** What a trace shows *)

Definition sentWork (tr : list event) : list expectation :=
  flat_map (fun ev => match ev with EvSendWork t => [t] | _ => [] end) tr.

Definition receivedWork (tr : list event) : list expectation :=
  flat_map (fun ev => match ev with EvRecvWork _ t => [t] | _ => [] end) tr.

(** The tests whose loop body ran, in the order they ran. *)
Definition executed (tr : list event) : list expectation :=
  flat_map (fun ev => match ev with EvRunTest _ t => [t] | _ => [] end) tr.

Definition sentFailures (tr : list event) : list expectation :=
  flat_map (fun ev => match ev with EvSendFailure _ f => [f] | _ => [] end) tr.

(** The failures that reached [failureCounter], in the order printed. *)
Definition reported (tr : list event) : list expectation :=
  flat_map (fun ev => match ev with EvPrintf f => [f] | _ => [] end) tr.


(** ** [runTests] and [main] *)

Record outcome : Type := mkOutcome {
  stdout : string;
  stderr : string;
  exitCode : Z
}.

Section Program.
Context `{Platform}.

(** Everything [failureCounter] wrote to standard output. *)
Definition printed (tr : list event) : string :=
  String.concat "" (map failureReport (reported tr)).

(** [runTests] under a schedule of its goroutines: the trace and the error
    returned ([None] for nil). The outer [None]: the schedule is not one of
    a whole run (it picks a blocked goroutine, or stops before [runTests]
    has its count). *)
Definition runTests (NumCPU : nat) (sched : list goroutine)
  : option (list event * option error) :=
  match loadRoot with
  | inl e => Some ([], Some e)
  | inr root =>
      match loadConfig with
      | inl e => Some ([], Some e)
      | inr config =>
          match loadExpectations with
          | inl e => Some ([], Some e)
          | inr expects =>
              let numWorkers := NumCPU * 2 in
              match run numWorkers config root sched (init numWorkers expects) with
              | Some (tr, s) =>
                  match mainG s with
                  | MReturned numFailures =>
                      if Nat.eqb numFailures 0 then Some (tr, None)
                      else Some (tr, Some (ErrFailed numFailures (List.length expects)))
                  | _ => None
                  end
              | None => None
              end
          end
      end
  end.

(** [main]: the builtin [println] writes to standard error, as
    [fmt.Fprintf(os.Stderr, ...)] does. *)
Definition main (NumCPU : nat) (sched : list goroutine) : option outcome :=
  match runTests NumCPU sched with
  | None => None
  | Some (tr, Some e) => Some (mkOutcome (printed tr) (Error e ++ newline) 1)
  | Some (tr, None) => Some (mkOutcome (printed tr) ("PASS" ++ newline) 0)
  end.

End Program.

(** ** A platform to run the definitions on

    [strconv.Quote] on strings of ASCII bytes (a byte from 0x80 on is
    escaped as [\x..], which Go does when it is not part of valid UTF-8). *)

Definition hexDigit (n : nat) : string :=
  String (nth n (list_ascii_of_string "0123456789abcdef") "0"%char) EmptyString.

Definition quoteByte (c : ascii) : string :=
  let n := nat_of_ascii c in
  if Nat.eqb n 34 then String "\"%char (String c EmptyString)
  else if Nat.eqb n 92 then "\\"
  else if Nat.eqb n 7 then "\a"
  else if Nat.eqb n 8 then "\b"
  else if Nat.eqb n 12 then "\f"
  else if Nat.eqb n 10 then "\n"
  else if Nat.eqb n 13 then "\r"
  else if Nat.eqb n 9 then "\t"
  else if Nat.eqb n 11 then "\v"
  else if Nat.ltb n 32 || Nat.leb 127 n
       then ("\x" ++ hexDigit (n / 16) ++ hexDigit (n mod 16))%string
  else String c EmptyString.

Definition doubleQuote : string := String (ascii_of_nat 34) EmptyString.

Definition quoteASCII (s : string) : string :=
  (doubleQuote ++ String.concat "" (map quoteByte (list_ascii_of_string s)) ++ doubleQuote)%string.

(** Certificates are named by the file they come from; a [.chain] file is
    empty and any other file holds one certificate; [Verify] accepts every
    leaf or none; the corpus is [corpus]. *)
Definition examplePlatform (accept : bool) (corpus : list expectation) : Platform :=
  {| Certificate := string;
     readPEMChain := fun path =>
       match index 0 ".chain" path with
       | Some _ => inr []
       | None => inr [path]
       end;
     Verify := fun _ _ _ _ =>
       if accept then None
       else Some (PlatformError "x509: certificate is not valid for any names");
     ReadFile := fun path => inr path;
     unmarshalConfig := fun _ => inr (mkConfigFile "10.0.0.1" "example.com");
     unmarshalExpectations := fun _ => inr corpus;
     Quote := quoteASCII |}.

Definition exampleConfig : configFile := mkConfigFile "10.0.0.1" "example.com".

Definition resultOK : expectedResult.t := expectedResult.mk "OK" [].
Definition resultERROR : expectedResult.t := expectedResult.mk "ERROR" [].

(** The expectations of the end-to-end scenarios: id 7 expects OK, id 8
    ERROR, id 9 WEAK-OK for a non-fatal reason, id 10 WEAK-OK without any. *)
Definition expect7 : expectation := mkExpectation 7 resultOK resultOK [] false None.
Definition expect8 : expectation := mkExpectation 8 resultOK resultERROR [] false None.
Definition expect9 : expectation :=
  mkExpectation 9 resultOK (expectedResult.mk "WEAK-OK" [ipViolation]) [] false None.
Definition expect10 : expectation :=
  mkExpectation 10 resultOK (expectedResult.mk "WEAK-OK" []) [] false None.

(** The root that [loadRoot] finds on [examplePlatform]. *)
Definition exampleRoot : string := "../certificates/root.crt".

(** A platform on which no certificate file can be read. *)
Definition unreadablePlatform : Platform :=
  {| Certificate := string;
     readPEMChain := fun path =>
       inl (PlatformError ("open " ++ path ++ ": no such file or directory")%string);
     Verify := fun _ _ _ _ => None;
     ReadFile := fun path => inr path;
     unmarshalConfig := fun _ => inr (mkConfigFile "10.0.0.1" "example.com");
     unmarshalExpectations := fun _ => inr [];
     Quote := quoteASCII |}.

(** Schedules of whole runs. With two workers and the corpus
    [[expect8; expect10]], worker 0 takes both trials of the first
    expectation and worker 1 both of the second; the DNS trial of
    [expect10] runs before that of [expect8] and its failure is sent
    first. With one worker the trials run, and the failures come, in
    dispatch order. *)
Definition scheduleTwoWorkers : list goroutine :=
  [GMain; GMain;                      (* work <- 8/IP, 8/DNS *)
   GWorker 0; GWorker 0;              (* 0 takes 8/IP and skips it *)
   GWorker 0;                         (* 0 takes 8/DNS *)
   GMain; GMain;                      (* work <- 10/IP, 10/DNS *)
   GWorker 1; GWorker 1;              (* 1 takes 10/IP and skips it *)
   GWorker 1; GWorker 1;              (* 1 takes 10/DNS and runs it *)
   GWorker 0;                         (* 0 runs 8/DNS *)
   GMain;                             (* close(work) *)
   GWorker 1; GWorker 0;              (* failures <- 10/DNS, 8/DNS *)
   GCounter;
   GWorker 0; GWorker 1;              (* both workers return *)
   GCounter;
   GMain; GMain;                      (* wg.Wait(), close(failures) *)
   GCounter; GCounter].

Definition scheduleOneWorker : list goroutine :=
  [GMain; GWorker 0; GWorker 0;       (* 8/IP *)
   GMain; GWorker 0; GWorker 0;       (* 8/DNS *)
   GWorker 0; GCounter;
   GMain; GWorker 0; GWorker 0;       (* 10/IP *)
   GMain; GWorker 0; GWorker 0;       (* 10/DNS *)
   GMain;                             (* close(work) *)
   GWorker 0; GCounter;
   GWorker 0;                         (* the worker returns *)
   GMain; GMain;
   GCounter; GCounter].

(** A whole run of two workers over a corpus of one expectation none of
    whose trials fails. *)
Definition scheduleOneExpectation : list goroutine :=
  [GMain; GMain; GWorker 0; GWorker 1; GWorker 1; GWorker 0; GMain;
   GWorker 0; GWorker 1; GMain; GMain; GCounter; GCounter].

(** The DNS trial of [expect9] as [worker] sends it to [failures] when
    [Verify] rejects the leaf. *)
Definition exampleFailure : expectation :=
  setErr (PlatformError "x509: certificate is not valid for any names")
         (setTestDNS true expect9).

(** ** What a state holds

    The sends still ahead of the dispatch loop, the tests the workers hold
    in their loop body and at their send on [failures], and the failures
    [worker] produces for a list of tests. *)

Definition pendingOf (m : mainPC) : list expectation :=
  match m with MSend pending => pending | _ => [] end.

Definition running (ws : list workerPC) : list expectation :=
  flat_map (fun pc => match pc with WRun t => [t] | _ => [] end) ws.

Definition inflight (ws : list workerPC) : list expectation :=
  flat_map (fun pc => match pc with WSend f => [f] | _ => [] end) ws.

Definition failuresOf `{Platform} (config : configFile) (root : Certificate)
    (tests : list expectation) : list expectation :=
  flat_map (fun t => match runTest config root t with
                     | Some f => [f]
                     | None => []
                     end) tests.

(** ** The invariant of a run

    What holds of the trace so far and the state after any schedule run
    from [init]: the channels are queues between what was sent and what was
    received, every received test is run once, every test run produced its
    failure or none, the
    counter counted what it printed, and the program counters agree with
    the channels being closed. *)

Record Inv `{Platform} (numWorkers : nat) (config : configFile) (root : Certificate)
    (expects : list expectation) (tr : list event) (s : state) : Prop := mkInv {
  inv_sent : sentWork tr ++ pendingOf (mainG s) = dispatch expects;
  inv_recv : receivedWork tr ++ buf (work s) = sentWork tr;
  inv_exec : Permutation (executed tr ++ running (workers s)) (receivedWork tr);
  inv_fail : Permutation (sentFailures tr ++ inflight (workers s))
                         (failuresOf config root (executed tr));
  inv_rep : reported tr ++ buf (failures s) = sentFailures tr;
  inv_num : match counterG s with
            | CRange k | CCount k => k = List.length (reported tr)
            | CReturned => True
            end;
  inv_len : List.length (workers s) = numWorkers;
  inv_wclosed : closed (work s) = match mainG s with MSend _ => false | _ => true end;
  inv_done : existsb isDone (workers s) = true ->
             closed (work s) = true /\ buf (work s) = [];
  inv_fclosed : closed (failures s) =
                match mainG s with MRecvCount | MReturned _ => true | _ => false end;
  inv_waited : match mainG s with
               | MCloseFailures | MRecvCount | MReturned _ =>
                   forallb isDone (workers s) = true
               | _ => True
               end;
  inv_drained : match counterG s with
                | CRange _ => True
                | _ => closed (failures s) = true /\ buf (failures s) = []
                end;
  inv_ret : match mainG s with
            | MReturned k => counterG s = CReturned /\ k = List.length (reported tr)
            | _ => counterG s <> CReturned
            end
}.

(** ** The work left in a state

    A number that every step of every goroutine makes smaller: a run of
    [runTests] cannot go on for ever. *)

Definition weightMain (m : mainPC) : nat :=
  match m with
  | MSend pending => 5 * List.length pending + 4
  | MWait => 3
  | MCloseFailures => 2
  | MRecvCount => 1
  | MReturned _ => 0
  end.

Definition weightWorker (pc : workerPC) : nat :=
  match pc with
  | WRange => 1
  | WRun _ => 4
  | WSend _ => 3
  | WDone => 0
  end.

Definition weightCounter (c : counterPC) : nat :=
  match c with
  | CRange _ => 2
  | CCount _ => 1
  | CReturned => 0
  end.

Definition measure (s : state) : nat :=
  weightMain (mainG s) + list_sum (map weightWorker (workers s)) +
  weightCounter (counterG s) +
  4 * List.length (buf (work s)) + List.length (buf (failures s)).

(** Some goroutine can take a step. *)
Definition canStep `{Platform} (numWorkers : nat) (config : configFile)
    (root : Certificate) (s : state) : Prop :=
  exists g evs s', step numWorkers config root g s = Some (evs, s').

(** ** Lines of output *)

Fixpoint lineCount (s : string) : nat :=
  match s with
  | EmptyString => 0
  | String c rest =>
      (if Nat.eqb (nat_of_ascii c) 10 then 1 else 0) + lineCount rest
  end.

(** The report line as the specification words it, for comparison with
    [failureReport]: [#<id>: failed for <IP|DNS>: <error> <space-joined
    descriptions>], the error being the text of the captured error. *)
Definition specReportLine `{Platform} (failure : expectation) : string :=
  "#" ++ Itoa (Id failure) ++ ": failed for " ++ testType failure ++ ": " ++
  match err failure with Some e => Error e | None => "" end ++ " " ++
  String.concat " " (descriptions failure).

(** ** [readPEMChain]

    The function of that name of the source, over the library calls it
    makes: [ioutil.ReadFile], [pem.Decode], which gives the first PEM block
    of its argument and the bytes after it, or no block, and
    [x509.ParseCertificate]. The [for] loop runs on fuel; [pem.Decode]
    consumes what it decodes (see [Consuming]), so the length of the file,
    plus one for the last round, is fuel enough. *)

Module pem.
Record Block : Type := mkBlock {
  BlockType : string;   (* field Type of pem.Block *)
  Bytes : string
}.
End pem.

Class PEMLibrary (Certificate : Type) : Type := {
  Decode : string -> option (pem.Block * string);
  ParseCertificate : string -> error + Certificate
}.

Module PEM.
Section ReadPEMChain.
Variable Certificate : Type.
Context `{PEMLibrary Certificate}.
Variable ReadFile : string -> error + string.

(** The [for] loop of [readPEMChain]: [None] when the fuel runs out. *)
Fixpoint readBlocks (fuel : nat) (pemBytes : string) (certs : list Certificate)
  : option (error + list Certificate) :=
  match fuel with
  | O => None
  | S fuel' =>
      match Decode pemBytes with
      | None => Some (inr certs)
      | Some (block, rest) =>
          if pem.BlockType block =? "CERTIFICATE" then
            match ParseCertificate (pem.Bytes block) with
            | inl e => Some (inl e)
            | inr cert => readBlocks fuel' rest (certs ++ [cert])
            end
          else readBlocks fuel' rest certs
      end
  end.

Definition readPEMChain (path : string) : option (error + list Certificate) :=
  match ReadFile path with
  | inl e => Some (inl e)
  | inr pemBytes => readBlocks (S (String.length pemBytes)) pemBytes []
  end.

(** The blocks of a file, as repeated [Decode] finds them. *)
Fixpoint blocksOf (fuel : nat) (pemBytes : string) : list pem.Block :=
  match fuel with
  | O => []
  | S fuel' =>
      match Decode pemBytes with
      | None => []
      | Some (block, rest) => block :: blocksOf fuel' rest
      end
  end.

Definition isCertificate (block : pem.Block) : bool :=
  pem.BlockType block =? "CERTIFICATE".

(** The CERTIFICATE blocks of a file, in file order. *)
Definition certificateBlocks (pemBytes : string) : list pem.Block :=
  filter isCertificate (blocksOf (S (String.length pemBytes)) pemBytes).

(** [Decode] returns fewer bytes than it was given, as [pem.Decode] does
    whenever it returns a block. *)
Definition Consuming : Prop :=
  forall pemBytes block rest,
    Decode pemBytes = Some (block, rest) ->
    String.length rest < String.length pemBytes.

End ReadPEMChain.
End PEM.

(** The platform reads its PEM files with the [readPEMChain] of the
    source, over its own [ReadFile]. *)
Definition ReadsPEM `{Platform} `{PEMLibrary Certificate} : Prop :=
  forall path, PEM.readPEMChain Certificate ReadFile path = Some (readPEMChain path).

(** ** A PEM library to run [readPEMChain] on

    A file is a sequence of blocks of two characters: the first is [C] for
    a CERTIFICATE block and anything else for a block of another type, the
    second is the content; a certificate whose content is [!] does not
    parse. *)
Definition exampleDecode (pemBytes : string) : option (pem.Block * string) :=
  match pemBytes with
  | String t (String c rest) =>
      Some (pem.mkBlock (if Ascii.eqb t "C" then "CERTIFICATE" else "PRIVATE KEY")
                        (String c EmptyString), rest)
  | _ => None
  end.

Definition examplePEM : PEMLibrary string :=
  {| Decode := exampleDecode;
     ParseCertificate := fun bytes =>
       if bytes =? "!" then inl (PlatformError "x509: malformed certificate")
       else inr bytes |}.

(** The files of a small repository: the root, and for expectation 7 an
    empty chain and one leaf, for expectation 8 a chain behind a key and a
    leaf file of two certificates, for expectation 9 a leaf that does not
    parse; no other file exists. *)
Definition exampleFiles (path : string) : error + string :=
  if path =? "../certificates/root.crt" then inr "CR"
  else if path =? "../certificates/7.chain" then inr ""
  else if path =? "../certificates/7.crt" then inr "CL"
  else if path =? "../certificates/8.chain" then inr "KkCiCj"
  else if path =? "../certificates/8.crt" then inr "CLCM"
  else if path =? "../certificates/9.chain" then inr ""
  else if path =? "../certificates/9.crt" then inr "KkC!CL"
  else inl (PlatformError ("open " ++ path ++ ": no such file or directory")%string).

(** The platform over a file system and [examplePEM]; [Verify] accepts
    every leaf. *)
Definition filePlatformOf (files : string -> error + string) : Platform :=
  {| Certificate := string;
     readPEMChain := fun path =>
       match PEM.readPEMChain string (H := examplePEM) files path with
       | Some r => r
       | None => inr []
       end;
     Verify := fun _ _ _ _ => None;
     ReadFile := files;
     unmarshalConfig := fun _ => inr (mkConfigFile "10.0.0.1" "example.com");
     unmarshalExpectations := fun _ => inr [expect7; expect8; expect9];
     Quote := quoteASCII |}.

Definition filePlatform : Platform := filePlatformOf exampleFiles.

(** A file system all of whose files are empty. *)
Definition emptyFiles (path : string) : error + string := inr EmptyString.

(** * Properties of the expectation evaluator *)

Lemma fatal_is_cnWithSANs (desc : string) : fatal desc = true -> desc = cnWithSANs.
Proof. unfold fatal. apply String.eqb_eq. Qed.

Lemma fatal_not_nonFatal (desc : string) : fatal desc = true -> nonFatal desc = false.
Proof. intros Hf. rewrite (fatal_is_cnWithSANs _ Hf). reflexivity. Qed.

(** The scan passes over non-fatal tags and stops at the first fatal one,
    whatever follows it. *)
Lemma scan_first_fatal (pre post : list string) (b : bool) :
  forallb nonFatal pre = true ->
  scanDescriptions (pre ++ cnWithSANs :: post) b = inr true.
Proof.
  revert b. induction pre as [|d pre IH]; intros b Hpre.
  - reflexivity.
  - simpl in Hpre. apply andb_true_iff in Hpre as [Hd Hpre].
    simpl. rewrite Hd. apply IH. exact Hpre.
Qed.

(** The scan stops with an error at the first tag outside the vocabulary
    when only non-fatal tags come before it. *)
Lemma scan_first_unknown (pre post : list string) (d : string) (b : bool) :
  forallb nonFatal pre = true -> recognized d = false ->
  scanDescriptions (pre ++ d :: post) b = inl (ErrUnknownDescription d).
Proof.
  revert b. induction pre as [|x pre IH]; intros b Hpre Hd.
  - unfold recognized in Hd. apply orb_false_iff in Hd as [Hn Hf].
    simpl. rewrite Hn, Hf. reflexivity.
  - simpl in Hpre. apply andb_true_iff in Hpre as [Hx Hpre].
    simpl. rewrite Hx. apply IH; assumption.
Qed.

(** A list of non-fatal tags leaves [shouldFail] false. *)
Lemma scan_all_nonFatal (descs : list string) (b : bool) :
  descs <> [] -> forallb nonFatal descs = true ->
  scanDescriptions descs b = inr false.
Proof.
  revert b. induction descs as [|d descs IH]; intros b Hne Hall.
  - contradiction.
  - simpl in Hall. apply andb_true_iff in Hall as [Hd Hall].
    simpl. rewrite Hd. destruct descs as [|d' descs'].
    + reflexivity.
    + apply IH; [discriminate | exact Hall].
Qed.

(** In a list of recognized tags that holds a fatal one, only non-fatal
    tags come before the first fatal one. *)
Lemma split_at_first_fatal (descs : list string) (d : string) :
  forallb recognized descs = true -> In d descs -> fatal d = true ->
  exists pre post,
    descs = pre ++ cnWithSANs :: post /\ forallb nonFatal pre = true.
Proof.
  induction descs as [|x descs IH]; intros Hrec Hin Hf.
  - contradiction.
  - simpl in Hrec. apply andb_true_iff in Hrec as [Hx Hrec].
    destruct (nonFatal x) eqn:Hnx.
    + destruct Hin as [->|Hin].
      * rewrite (fatal_not_nonFatal _ Hf) in Hnx. discriminate.
      * destruct (IH Hrec Hin Hf) as (pre & post & -> & Hpre).
        exists (x :: pre), post. split; [reflexivity|].
        simpl. rewrite Hnx. exact Hpre.
    + unfold recognized in Hx. rewrite Hnx in Hx. simpl in Hx.
      rewrite (fatal_is_cnWithSANs _ Hx).
      exists [], descs. split; reflexivity.
Qed.

Lemma weakOK_nonempty (descs : list string) :
  descs <> [] -> evalExpected "WEAK-OK" descs = scanDescriptions descs false.
Proof.
  intros Hne. unfold evalExpected. simpl.
  destruct descs; [contradiction | reflexivity].
Qed.

(** C1: under WEAK-OK, a combined description list of recognized tags that
    holds a fatal tag makes mustSucceed false; the scan passes over the
    non-fatal tags before the first fatal tag and stops there, so that
    nothing after it, recognized or not, changes the decision. *)
Theorem weakOK_fatal_tag_must_fail (descs : list string) (d : string) :
  forallb recognized descs = true -> In d descs -> fatal d = true ->
  mustSucceed "WEAK-OK" descs = inr false /\
  exists pre post,
    descs = pre ++ cnWithSANs :: post /\
    forallb nonFatal pre = true /\
    forall post', mustSucceed "WEAK-OK" (pre ++ cnWithSANs :: post') = inr false.
Proof.
  intros Hrec Hin Hf.
  destruct (split_at_first_fatal descs d Hrec Hin Hf) as (pre & post & -> & Hpre).
  assert (Hstop : forall post',
             mustSucceed "WEAK-OK" (pre ++ cnWithSANs :: post') = inr false).
  { intros post'. unfold mustSucceed.
    rewrite weakOK_nonempty by (destruct pre; discriminate).
    rewrite scan_first_fatal by exact Hpre. reflexivity. }
  split; [apply Hstop|].
  exists pre, post. repeat split; assumption.
Qed.

Lemma weakOK_fatal_tag_must_fail_witness :
  mustSucceed "WEAK-OK" [ipViolation; noIPGiven; cnWithSANs; dnsInCNViolation] = inr false /\
  exists pre post,
    [ipViolation; noIPGiven; cnWithSANs; dnsInCNViolation] = pre ++ cnWithSANs :: post /\
    forallb nonFatal pre = true /\
    forall post', mustSucceed "WEAK-OK" (pre ++ cnWithSANs :: post') = inr false.
Proof.
  apply (weakOK_fatal_tag_must_fail
           [ipViolation; noIPGiven; cnWithSANs; dnsInCNViolation] cnWithSANs).
  - vm_compute. reflexivity.
  - simpl. right. right. left. reflexivity.
  - vm_compute. reflexivity.
Defined.

(** C2: result code OK makes mustSucceed true and result code ERROR makes
    it false, in both cases a decision and not an evaluation error,
    whatever the descriptions. *)
Theorem ok_must_succeed_error_must_fail (descs : list string) :
  mustSucceed "OK" descs = inr true /\ mustSucceed "ERROR" descs = inr false.
Proof. split; reflexivity. Qed.



(** C4, as the code has it: under WEAK-OK, a tag outside the vocabulary
    that has only non-fatal tags before it in the combined list makes the
    evaluator fail with the error "unknown description for weak-OK: %q" of
    that tag, whatever follows it. *)
Theorem weakOK_unknown_description `{Platform}
    (pre post : list string) (d : string) :
  forallb nonFatal pre = true -> recognized d = false ->
  evalExpected "WEAK-OK" (pre ++ d :: post) = inl (ErrUnknownDescription d) /\
  mustSucceed "WEAK-OK" (pre ++ d :: post) = inl (ErrUnknownDescription d) /\
  Error (ErrUnknownDescription d) = ("unknown description for weak-OK: " ++ Quote d)%string.
Proof.
  intros Hpre Hd.
  assert (He : evalExpected "WEAK-OK" (pre ++ d :: post) = inl (ErrUnknownDescription d)).
  { rewrite weakOK_nonempty by (destruct pre; discriminate).
    apply scan_first_unknown; assumption. }
  split; [exact He|]. split; [|reflexivity].
  unfold mustSucceed. rewrite He. reflexivity.
Qed.

Lemma weakOK_unknown_description_witness :
  evalExpected "WEAK-OK" ([ipViolation; noIPGiven] ++ "bogus" :: [cnWithSANs])
    = inl (ErrUnknownDescription "bogus") /\
  mustSucceed "WEAK-OK" ([ipViolation; noIPGiven] ++ "bogus" :: [cnWithSANs])
    = inl (ErrUnknownDescription "bogus") /\
  @Error (examplePlatform true []) (ErrUnknownDescription "bogus")
    = ("unknown description for weak-OK: " ++ quoteASCII "bogus")%string.
Proof.
  apply (@weakOK_unknown_description (examplePlatform true [])
           [ipViolation; noIPGiven] [cnWithSANs] "bogus"); vm_compute; reflexivity.
Defined.

(** C4 as stated fails: a tag outside the vocabulary goes unnoticed under
    the result codes OK and ERROR and behind a fatal tag under WEAK-OK, and
    under an unknown result code the error names the code, not the tag. *)
Lemma unknown_description_unnoticed :
  recognized "bogus" = false /\
  evalExpected "OK" ["bogus"] = inr false /\
  evalExpected "ERROR" ["bogus"] = inr true /\
  evalExpected "WEAK-OK" [cnWithSANs; "bogus"] = inr true /\
  evalExpected "MAYBE" ["bogus"] = inl (ErrUnknownExpectedResult "MAYBE").
Proof. repeat split; vm_compute; reflexivity. Qed.

Lemma eval_not_weakOK (result : string) (descs descs' : list string) :
  result <> "WEAK-OK" -> evalExpected result descs = evalExpected result descs'.
Proof.
  intros Hne. apply String.eqb_neq in Hne. unfold evalExpected.
  rewrite Hne. reflexivity.
Qed.

(** C10: under the result codes OK and ERROR the evaluator returns its
    decision without error for every description list, the empty one and
    those with tags outside the vocabulary included; the descriptions bear
    on the result under WEAK-OK only. *)
Theorem descriptions_only_under_weakOK :
  (forall descs, evalExpected "OK" descs = inr false /\
                 evalExpected "ERROR" descs = inr true) /\
  evalExpected "OK" [] = evalExpected "OK" ["bogus"] /\
  evalExpected "ERROR" [] = evalExpected "ERROR" ["bogus"] /\
  (forall result descs descs',
     result <> "WEAK-OK" -> evalExpected result descs = evalExpected result descs') /\
  evalExpected "WEAK-OK" [ipViolation] <> evalExpected "WEAK-OK" [cnWithSANs].
Proof.
  split; [intros descs; split; reflexivity|].
  split; [reflexivity|]. split; [reflexivity|].
  split; [exact eval_not_weakOK|].
  vm_compute. discriminate.
Qed.

Lemma descriptions_only_under_weakOK_witness :
  evalExpected "OK" [] = evalExpected "OK" ["bogus"; cnWithSANs].
Proof.
  destruct descriptions_only_under_weakOK as (_ & _ & _ & Hind & _).
  apply (Hind "OK" [] ["bogus"; cnWithSANs]). discriminate.
Defined.

(** Under WEAK-OK a non-empty list of non-fatal tags makes mustSucceed
    true. *)
Lemma weakOK_nonFatal_must_succeed (descs : list string) :
  descs <> [] -> forallb nonFatal descs = true ->
  mustSucceed "WEAK-OK" descs = inr true.
Proof.
  intros Hne Hall. unfold mustSucceed.
  rewrite weakOK_nonempty by exact Hne.
  rewrite scan_all_nonFatal by assumption. reflexivity.
Qed.

(** * Properties of the run *)

Lemma update_length {A : Type} (i : nat) (x : A) (l : list A) :
  List.length (update i x l) = List.length l.
Proof.
  revert i. induction l as [|y l IH]; intros [|i]; simpl; auto.
Qed.

Lemma nth_error_update_split {A : Type} (l : list A) (i : nat) (a : A) :
  nth_error l i = Some a ->
  exists l1 l2, l = l1 ++ a :: l2 /\ forall b, update i b l = l1 ++ b :: l2.
Proof.
  revert i. induction l as [|y l IH]; intros [|i] Hnth; simpl in Hnth; try discriminate.
  - injection Hnth as ->. exists [], l. split; reflexivity.
  - destruct (IH i Hnth) as (l1 & l2 & -> & Hupd).
    exists (y :: l1), l2. split; [reflexivity|].
    intros b. simpl. rewrite Hupd. reflexivity.
Qed.

Lemma inflight_app (l1 l2 : list workerPC) :
  inflight (l1 ++ l2) = inflight l1 ++ inflight l2.
Proof. apply flat_map_app. Qed.

Lemma running_app (l1 l2 : list workerPC) :
  running (l1 ++ l2) = running l1 ++ running l2.
Proof. apply flat_map_app. Qed.

Lemma running_all_done (ws : list workerPC) :
  forallb isDone ws = true -> running ws = [].
Proof.
  induction ws as [|pc ws IH]; simpl; [reflexivity|].
  intros Hall. apply andb_true_iff in Hall as [Hpc Hall].
  destruct pc; try discriminate. simpl. auto.
Qed.

Lemma inflight_all_done (ws : list workerPC) :
  forallb isDone ws = true -> inflight ws = [].
Proof.
  induction ws as [|pc ws IH]; simpl; [reflexivity|].
  intros Hall. apply andb_true_iff in Hall as [Hpc Hall].
  destruct pc; try discriminate. simpl. auto.
Qed.

Lemma sentWork_app (t1 t2 : list event) : sentWork (t1 ++ t2) = sentWork t1 ++ sentWork t2.
Proof. apply flat_map_app. Qed.

Lemma receivedWork_app (t1 t2 : list event) :
  receivedWork (t1 ++ t2) = receivedWork t1 ++ receivedWork t2.
Proof. apply flat_map_app. Qed.

Lemma executed_app (t1 t2 : list event) : executed (t1 ++ t2) = executed t1 ++ executed t2.
Proof. apply flat_map_app. Qed.

Lemma sentFailures_app (t1 t2 : list event) :
  sentFailures (t1 ++ t2) = sentFailures t1 ++ sentFailures t2.
Proof. apply flat_map_app. Qed.

Lemma reported_app (t1 t2 : list event) : reported (t1 ++ t2) = reported t1 ++ reported t2.
Proof. apply flat_map_app. Qed.

Lemma failuresOf_app `{Platform} (config : configFile) (root : Certificate)
    (l1 l2 : list expectation) :
  failuresOf config root (l1 ++ l2) = failuresOf config root l1 ++ failuresOf config root l2.
Proof. apply flat_map_app. Qed.

Lemma send_Some (cap : nat) (x : expectation) (c c' : chan) :
  send cap x c = Some c' ->
  closed c = false /\ List.length (buf c) < cap /\ c' = mkChan (buf c ++ [x]) false.
Proof.
  unfold send. destruct (closed c); [discriminate|].
  destruct (Nat.ltb (List.length (buf c)) cap) eqn:Hlt; [|discriminate].
  intros [= <-]. apply Nat.ltb_lt in Hlt. auto.
Qed.

Lemma recv_Some (c c' : chan) (x : expectation) :
  recv c = Some (Some x, c') -> buf c = x :: buf c' /\ closed c' = closed c.
Proof.
  unfold recv. destruct (buf c) as [|y rest] eqn:Hbuf.
  - destruct (closed c); discriminate.
  - intros [= <- <-]. auto.
Qed.

Lemma recv_None (c c' : chan) :
  recv c = Some (None, c') -> buf c = [] /\ closed c = true.
Proof.
  unfold recv. destruct (buf c) as [|y rest]; [|discriminate].
  destruct (closed c); [auto | discriminate].
Qed.

Lemma forallb_isDone_nth (ws : list workerPC) (i : nat) (pc : workerPC) :
  forallb isDone ws = true -> nth_error ws i = Some pc -> pc = WDone.
Proof.
  intros Hall Hnth. apply nth_error_In in Hnth.
  rewrite forallb_forall in Hall. specialize (Hall pc Hnth).
  destruct pc; try discriminate. reflexivity.
Qed.

Lemma existsb_isDone_replace (l1 l2 : list workerPC) (a b : workerPC) :
  isDone a = false -> isDone b = false ->
  existsb isDone (l1 ++ b :: l2) = existsb isDone (l1 ++ a :: l2).
Proof.
  intros Ha Hb. rewrite !existsb_app. simpl. rewrite Ha, Hb. reflexivity.
Qed.

Lemma inflight_repeat_WRange (n : nat) : inflight (repeat WRange n) = [].
Proof. induction n; simpl; auto. Qed.

Lemma running_repeat_WRange (n : nat) : running (repeat WRange n) = [].
Proof. induction n; simpl; auto. Qed.

Lemma failuresOf_Permutation `{Platform} (config : configFile) (root : Certificate)
    (l l' : list expectation) :
  Permutation l l' -> Permutation (failuresOf config root l) (failuresOf config root l').
Proof. intros Hp. unfold failuresOf. apply Permutation_flat_map. exact Hp. Qed.

Lemma existsb_isDone_repeat_WRange (n : nat) : existsb isDone (repeat WRange n) = false.
Proof. induction n; simpl; auto. Qed.

Section Safety.
Context `{Platform}.
Variable numWorkers : nat.
Variable config : configFile.
Variable root : Certificate.
Variable expects : list expectation.

Local Abbreviation Inv' := (Inv numWorkers config root expects).

Lemma init_inv : Inv' [] (init numWorkers expects).
Proof.
  constructor; simpl; auto.
  - rewrite running_repeat_WRange. constructor.
  - rewrite inflight_repeat_WRange. constructor.
  - apply repeat_length.
  - rewrite existsb_isDone_repeat_WRange. discriminate.
  - discriminate.
Qed.

Ltac trace_simpl :=
  rewrite ?sentWork_app, ?receivedWork_app, ?executed_app, ?sentFailures_app,
    ?reported_app;
  simpl; rewrite ?app_nil_r.

Lemma stepMain_inv (tr evs : list event) (s s' : state) :
  Inv' tr s -> stepMain numWorkers s = Some (evs, s') -> Inv' (tr ++ evs) s'.
Proof.
  intros [Hsent Hrecv Hexec Hfail Hrep Hnum Hlen Hwc Hdone Hfc Hwait Hdr Hret] Hstep.
  destruct s as [m ws c w f]. unfold stepMain in Hstep. simpl in *.
  destruct m as [[|test rest]| | | |k]; simpl in *; try discriminate;
    try rewrite app_nil_r in Hsent.
  - (* close(work) *)
    injection Hstep as <- <-.
    constructor; simpl; trace_simpl; auto.
    intros Hex. apply Hdone in Hex as [Hc _]. congruence.
  - (* work <- expectation *)
    destruct (send numWorkers test w) as [w'|] eqn:Hsend; [|discriminate].
    injection Hstep as <- <-.
    apply send_Some in Hsend as (Hcl & _ & ->).
    constructor; simpl; trace_simpl; auto.
    + rewrite <- app_assoc. exact Hsent.
    + rewrite app_assoc, Hrecv. reflexivity.
    + intros Hex. apply Hdone in Hex as [Hc _]. congruence.
  - (* wg.Wait() *)
    destruct (forallb isDone ws) eqn:Hall; [|discriminate].
    injection Hstep as <- <-.
    constructor; simpl; trace_simpl; auto.
  - (* close(failures) *)
    injection Hstep as <- <-.
    constructor; simpl; trace_simpl; auto.
    destruct c; auto; destruct Hdr; congruence.
Qed.

Lemma stepCounter_inv (tr evs : list event) (s s' : state) :
  Inv' tr s -> stepCounter s = Some (evs, s') -> Inv' (tr ++ evs) s'.
Proof.
  intros [Hsent Hrecv Hexec Hfail Hrep Hnum Hlen Hwc Hdone Hfc Hwait Hdr Hret] Hstep.
  destruct s as [m ws c w f]. unfold stepCounter in Hstep. simpl in *.
  destruct c as [num|num|]; simpl in *; try discriminate.
  all: try rewrite app_nil_r in Hsent.
  - destruct (recv f) as [[[failure|] f']|] eqn:Hrecvf; try discriminate;
      injection Hstep as <- <-.
    + (* a failure is received, counted and printed *)
      apply recv_Some in Hrecvf as [Hbuf Hcl].
      constructor; simpl; trace_simpl; auto.
      * rewrite <- app_assoc. simpl. rewrite <- Hbuf. exact Hrep.
      * rewrite length_app. simpl. lia.
      * rewrite Hcl. exact Hfc.
      * destruct m; try discriminate. destruct Hret; discriminate.
    + (* the loop ends *)
      apply recv_None in Hrecvf as [Hbuf Hcl].
      constructor; simpl; trace_simpl; auto.
      destruct m; try discriminate. destruct Hret; discriminate.
  - (* count <- num *)
    destruct m; try discriminate. injection Hstep as <- <-.
    simpl in *. rewrite app_nil_r in Hsent.
    constructor; simpl; trace_simpl; auto.
Qed.

Lemma stepWorker_inv (i : nat) (tr evs : list event) (s s' : state) :
  Inv' tr s -> stepWorker numWorkers config root i s = Some (evs, s') ->
  Inv' (tr ++ evs) s'.
Proof.
  intros [Hsent Hrecv Hexec Hfail Hrep Hnum Hlen Hwc Hdone Hfc Hwait Hdr Hret] Hstep.
  destruct s as [m ws c w f]. unfold stepWorker in Hstep. simpl in *.
  destruct (nth_error ws i) as [pc|] eqn:Hnth; [|discriminate].
  assert (Hnotwaited : forallb isDone ws = true -> pc = WDone)
    by (intros Hall; exact (forallb_isDone_nth ws i pc Hall Hnth)).
  destruct (nth_error_update_split ws i pc Hnth) as (l1 & l2 & Hws & Hupd).
  destruct pc as [|test|test|]; try discriminate.
  - destruct (recv w) as [[[test|] w']|] eqn:Hrecvw; try discriminate;
      injection Hstep as <- <-.
    + (* a test is received *)
      apply recv_Some in Hrecvw as [Hbuf Hcl].
      rewrite Hupd. subst ws.
      constructor; simpl; trace_simpl; auto.
      * rewrite <- app_assoc. simpl. rewrite <- Hbuf. exact Hrecv.
      * rewrite running_app in *. simpl in *.
        apply Permutation_trans with ((executed tr ++ running l1 ++ running l2) ++ [test]).
        -- rewrite <- !app_assoc. apply Permutation_app_head.
           apply Permutation_app_head.
           change (test :: running l2) with ([test] ++ running l2).
           apply Permutation_app_comm.
        -- apply Permutation_app_tail. exact Hexec.
      * rewrite inflight_app in *. simpl in *. exact Hfail.
      * rewrite !length_app in *. simpl in *. exact Hlen.
      * rewrite Hcl. exact Hwc.
      * intros Hex.
        assert (Hex' : existsb isDone (l1 ++ WRange :: l2) = true).
        { rewrite <- Hex. apply existsb_isDone_replace; reflexivity. }
        apply Hdone in Hex' as [_ Hempty]. rewrite Hbuf in Hempty. discriminate.
      * destruct m; auto; apply Hnotwaited in Hwait; discriminate.
    + (* work is closed and drained: the worker returns *)
      apply recv_None in Hrecvw as [Hbuf Hcl].
      rewrite Hupd. subst ws.
      constructor; simpl; trace_simpl; auto.
      * rewrite running_app in *. simpl in *. exact Hexec.
      * rewrite inflight_app in *. simpl in *. exact Hfail.
      * rewrite !length_app in *. simpl in *. exact Hlen.
      * destruct m; auto; apply Hnotwaited in Hwait; discriminate.
  - (* the loop body runs *)
    injection Hstep as <- <-.
    rewrite Hupd. subst ws.
    constructor; simpl; trace_simpl; auto.
    + rewrite running_app in *. simpl in *.
      eapply Permutation_trans; [|exact Hexec].
      rewrite <- !app_assoc. apply Permutation_app_head. simpl.
      destruct (runTest config root test); simpl; apply Permutation_middle.
    + rewrite failuresOf_app. simpl. rewrite app_nil_r.
      rewrite inflight_app in *. simpl in *.
      destruct (runTest config root test) as [fl|]; simpl.
      * rewrite app_assoc.
        apply Permutation_trans with
          (((sentFailures tr ++ inflight l1) ++ inflight l2) ++ [fl]).
        -- rewrite <- !app_assoc. apply Permutation_app_head.
           apply Permutation_app_head.
           change (fl :: inflight l2) with ([fl] ++ inflight l2).
           apply Permutation_app_comm.
        -- apply Permutation_app_tail. rewrite <- app_assoc. exact Hfail.
      * rewrite app_nil_r. exact Hfail.
    + rewrite !length_app in *. simpl in *.
      destruct (runTest config root test); exact Hlen.
    + intros Hex. apply Hdone.
      rewrite <- Hex. apply existsb_isDone_replace; [|reflexivity].
      destruct (runTest config root test); reflexivity.
    + destruct m; auto; apply Hnotwaited in Hwait; discriminate.
  - (* failures <- test *)
    destruct (send numWorkers test f) as [f'|] eqn:Hsend; [|discriminate].
    injection Hstep as <- <-.
    apply send_Some in Hsend as (Hcl & _ & ->).
    rewrite Hupd. subst ws.
    constructor; simpl; trace_simpl; auto.
    + rewrite running_app in *. simpl in *. exact Hexec.
    + rewrite inflight_app in *. simpl in *.
      eapply Permutation_trans; [|exact Hfail].
      rewrite <- !app_assoc. apply Permutation_app_head. simpl.
      apply Permutation_middle.
    + rewrite app_assoc, Hrep. reflexivity.
    + rewrite !length_app in *. simpl in *. exact Hlen.
    + intros Hex. apply Hdone.
      rewrite <- Hex. apply existsb_isDone_replace; reflexivity.
    + rewrite <- Hfc. symmetry. exact Hcl.
    + destruct m; auto; apply Hnotwaited in Hwait; discriminate.
    + destruct c; auto. all: destruct Hdr; congruence.
Qed.

Lemma step_inv (g : goroutine) (tr evs : list event) (s s' : state) :
  Inv' tr s -> step numWorkers config root g s = Some (evs, s') -> Inv' (tr ++ evs) s'.
Proof.
  destruct g as [|i|]; simpl.
  - apply stepMain_inv.
  - apply stepWorker_inv.
  - apply stepCounter_inv.
Qed.

Lemma run_inv (sched : list goroutine) (tr evs : list event) (s s' : state) :
  Inv' tr s -> run numWorkers config root sched s = Some (evs, s') -> Inv' (tr ++ evs) s'.
Proof.
  revert tr evs s. induction sched as [|g sched IH]; intros tr evs s Hinv Hrun; simpl in Hrun.
  - injection Hrun as <- <-. rewrite app_nil_r. exact Hinv.
  - destruct (step numWorkers config root g s) as [[evs1 s1]|] eqn:Hstep; [|discriminate].
    destruct (run numWorkers config root sched s1) as [[evs2 s2]|] eqn:Hrest; [|discriminate].
    injection Hrun as <- <-. rewrite app_assoc.
    apply (IH _ _ s1); [|exact Hrest].
    apply (step_inv g _ _ s); assumption.
Qed.

(** Every schedule run from the initial state keeps the invariant. *)
Lemma reachable_inv (sched : list goroutine) (tr : list event) (s : state) :
  run numWorkers config root sched (init numWorkers expects) = Some (tr, s) -> Inv' tr s.
Proof.
  intros Hrun. change tr with ([] ++ tr).
  apply (run_inv sched [] tr (init numWorkers expects)); [apply init_inv | exact Hrun].
Qed.

(** What a whole run did, once [runTests] has its count: every trial was
    sent and received in dispatch order and run once, in some order, the
    failures printed are those the trials produce, in some order, and the
    count is their number. *)
Lemma whole_run (sched : list goroutine) (tr : list event) (s : state) (k : nat) :
  0 < numWorkers ->
  run numWorkers config root sched (init numWorkers expects) = Some (tr, s) ->
  mainG s = MReturned k ->
  sentWork tr = dispatch expects /\
  receivedWork tr = dispatch expects /\
  Permutation (executed tr) (dispatch expects) /\
  Permutation (reported tr) (failuresOf config root (dispatch expects)) /\
  k = List.length (reported tr).
Proof.
  intros Hpos Hrun Hret.
  destruct (reachable_inv sched tr s Hrun)
    as [Hsent Hrecv Hexec Hfail Hrep Hnum Hlen Hwc Hdone Hfc Hwait Hdr Hr].
  rewrite Hret in *. simpl in *. rewrite app_nil_r in Hsent.
  destruct Hr as [Hc ->]. rewrite Hc in Hdr. destruct Hdr as [_ Hfbuf].
  rewrite Hfbuf, app_nil_r in Hrep.
  assert (Hex : existsb isDone (workers s) = true).
  { destruct (workers s) as [|pc ws]; simpl in *; [lia|].
    apply andb_true_iff in Hwait as [-> _]. reflexivity. }
  apply Hdone in Hex as [_ Hwbuf]. rewrite Hwbuf, app_nil_r in Hrecv.
  rewrite (inflight_all_done _ Hwait), app_nil_r in Hfail.
  rewrite (running_all_done _ Hwait), app_nil_r in Hexec.
  rewrite Hrep, Hrecv, Hsent in *.
  repeat split; auto.
  apply Permutation_trans with (failuresOf config root (executed tr));
    [exact Hfail | apply failuresOf_Permutation; exact Hexec].
Qed.

Lemma step_decreases (g : goroutine) (s s' : state) (evs : list event) :
  step numWorkers config root g s = Some (evs, s') -> measure s' < measure s.
Proof.
  destruct s as [m ws c w f]. destruct g as [|i|]; simpl.
  - unfold stepMain; simpl. destruct m as [[|test rest]| | | |k]; try discriminate.
    + intros [= <- <-]. unfold measure; simpl. lia.
    + destruct (send numWorkers test w) as [w'|] eqn:Hsend; [|discriminate].
      intros [= <- <-]. apply send_Some in Hsend as (_ & _ & ->).
      unfold measure; simpl. rewrite length_app. simpl. lia.
    + destruct (forallb isDone ws); [|discriminate].
      intros [= <- <-]. unfold measure; simpl. lia.
    + intros [= <- <-]. unfold measure; simpl. lia.
  - unfold stepWorker; simpl.
    destruct (nth_error ws i) as [pc|] eqn:Hnth; [|discriminate].
    destruct (nth_error_update_split ws i pc Hnth) as (l1 & l2 & -> & Hupd).
    destruct pc as [|test|test|]; try discriminate.
    + destruct (recv w) as [[[test|] w']|] eqn:Hrecvw; try discriminate;
        intros [= <- <-]; rewrite Hupd; unfold measure; simpl;
        rewrite !map_app, !list_sum_app; simpl.
      * apply recv_Some in Hrecvw as [-> _]. simpl. lia.
      * lia.
    + intros [= <- <-]. rewrite Hupd. unfold measure; simpl.
      rewrite !map_app, !list_sum_app. simpl.
      destruct (runTest config root test); simpl; lia.
    + destruct (send numWorkers test f) as [f'|] eqn:Hsend; [|discriminate].
      intros [= <- <-]. apply send_Some in Hsend as (_ & _ & ->).
      rewrite Hupd. unfold measure; simpl.
      rewrite !map_app, !list_sum_app, length_app. simpl. lia.
  - unfold stepCounter; simpl. destruct c as [num|num|]; try discriminate.
    + destruct (recv f) as [[[failure|] f']|] eqn:Hrecvf; try discriminate;
        intros [= <- <-]; unfold measure; simpl.
      * apply recv_Some in Hrecvf as [-> _]. simpl. lia.
      * lia.
    + destruct m; try discriminate. intros [= <- <-]. unfold measure; simpl. lia.
Qed.

(** A schedule is no longer than the work left where it starts. *)
Lemma run_bounded (sched : list goroutine) (s s' : state) (evs : list event) :
  run numWorkers config root sched s = Some (evs, s') ->
  List.length sched + measure s' <= measure s.
Proof.
  revert s evs. induction sched as [|g sched IH]; intros s evs Hrun; simpl in Hrun.
  - injection Hrun as _ <-. simpl. lia.
  - destruct (step numWorkers config root g s) as [[evs1 s1]|] eqn:Hstep; [|discriminate].
    destruct (run numWorkers config root sched s1) as [[evs2 s2]|] eqn:Hrest; [|discriminate].
    injection Hrun as _ <-.
    apply step_decreases in Hstep. apply IH in Hrest. simpl. lia.
Qed.

Lemma workers_cases (ws : list workerPC) :
  (exists i, nth_error ws i = Some WRange) \/
  (exists i t, nth_error ws i = Some (WRun t)) \/
  (exists i f, nth_error ws i = Some (WSend f)) \/
  forallb isDone ws = true.
Proof.
  induction ws as [|pc ws IH].
  - right. right. right. reflexivity.
  - destruct pc as [|t|f|].
    + left. exists 0. reflexivity.
    + right. left. exists 0, t. reflexivity.
    + right. right. left. exists 0, f. reflexivity.
    + destruct IH as [[i Hi]|[(i & t & Hi)|[(i & f & Hi)|Hall]]].
      * left. exists (S i). exact Hi.
      * right. left. exists (S i), t. exact Hi.
      * right. right. left. exists (S i), f. exact Hi.
      * right. right. right. simpl. exact Hall.
Qed.

(** A worker in its loop body can always go on. *)
Lemma runner_progress (s : state) (i : nat) (t : expectation) :
  nth_error (workers s) i = Some (WRun t) -> canStep numWorkers config root s.
Proof.
  intros Hnth. exists (GWorker i). simpl. unfold stepWorker. rewrite Hnth.
  eexists. eexists. reflexivity.
Qed.

Lemma recv_progress (c : chan) :
  buf c <> [] \/ closed c = true -> exists r, recv c = Some r.
Proof.
  unfold recv. intros [Hne|Hcl].
  - destruct (buf c); [contradiction | eexists; reflexivity].
  - destruct (buf c); [rewrite Hcl|]; eexists; reflexivity.
Qed.

Lemma full_nonempty (c : chan) :
  0 < numWorkers -> Nat.ltb (List.length (buf c)) numWorkers = false -> buf c <> [].
Proof.
  intros Hpos Hfull. apply Nat.ltb_ge in Hfull.
  destruct (buf c); simpl in *; [lia | discriminate].
Qed.

(** A worker at its send on [failures] can send, or the buffer is full and
    [failureCounter] can take a failure out of it. *)
Lemma sender_progress (tr : list event) (s : state) (i : nat) (f : expectation) :
  0 < numWorkers -> Inv' tr s ->
  closed (failures s) = false ->
  nth_error (workers s) i = Some (WSend f) ->
  canStep numWorkers config root s.
Proof.
  intros Hpos Hinv Hopen Hnth. unfold canStep.
  destruct (Nat.ltb (List.length (buf (failures s))) numWorkers) eqn:Hroom.
  - exists (GWorker i). simpl. unfold stepWorker. rewrite Hnth.
    unfold send. rewrite Hopen, Hroom. eexists. eexists. reflexivity.
  - pose proof (full_nonempty _ Hpos Hroom) as Hne.
    pose proof (inv_drained _ _ _ _ _ _ Hinv) as Hdr.
    exists GCounter. simpl. unfold stepCounter.
    destruct (counterG s) as [num|num|].
    + unfold recv. destruct (buf (failures s)); [contradiction|].
      eexists. eexists. reflexivity.
    + destruct Hdr; congruence.
    + destruct Hdr; congruence.
Qed.

(** No deadlock: until [runTests] has its count, some goroutine can step. *)
Lemma progress (tr : list event) (s : state) :
  0 < numWorkers -> Inv' tr s ->
  (forall k, mainG s <> MReturned k) -> canStep numWorkers config root s.
Proof.
  intros Hpos Hinv Hnot. unfold canStep.
  pose proof (inv_wclosed _ _ _ _ _ _ Hinv) as Hwc.
  pose proof (inv_fclosed _ _ _ _ _ _ Hinv) as Hfc.
  pose proof (inv_done _ _ _ _ _ _ Hinv) as Hdone.
  pose proof (inv_len _ _ _ _ _ _ Hinv) as Hlen.
  pose proof (inv_ret _ _ _ _ _ _ Hinv) as Hret.
  destruct (mainG s) as [[|test rest]| | | |k] eqn:Hm.
  - exists GMain. simpl. unfold stepMain. rewrite Hm. eexists. eexists. reflexivity.
  - destruct (Nat.ltb (List.length (buf (work s))) numWorkers) eqn:Hroom.
    + exists GMain. simpl. unfold stepMain, send. rewrite Hm, Hwc, Hroom.
      eexists. eexists. reflexivity.
    + pose proof (full_nonempty _ Hpos Hroom) as Hne.
      destruct (workers_cases (workers s)) as [[i Hi]|[(i & t & Hi)|[(i & f & Hi)|Hall]]].
      * exists (GWorker i). simpl. unfold stepWorker, recv. rewrite Hi.
        destruct (buf (work s)); [contradiction|]. eexists. eexists. reflexivity.
      * apply (runner_progress s i t Hi).
      * apply (sender_progress tr s i f); assumption.
      * exfalso. assert (Hex : existsb isDone (workers s) = true).
        { destruct (workers s) as [|pc ws]; simpl in *; [lia|].
          apply andb_true_iff in Hall as [-> _]. reflexivity. }
        apply Hdone in Hex as [Hc _]. congruence.
  - destruct (workers_cases (workers s)) as [[i Hi]|[(i & t & Hi)|[(i & f & Hi)|Hall]]].
    + destruct (recv_progress (work s) (or_intror Hwc)) as [[[test|] w'] Hr];
        exists (GWorker i); simpl; unfold stepWorker; rewrite Hi, Hr;
        eexists; eexists; reflexivity.
    + apply (runner_progress s i t Hi).
    + apply (sender_progress tr s i f); assumption.
    + exists GMain. simpl. unfold stepMain. rewrite Hm, Hall.
      eexists. eexists. reflexivity.
  - exists GMain. simpl. unfold stepMain. rewrite Hm. eexists. eexists. reflexivity.
  - exists GCounter. simpl. unfold stepCounter.
    destruct (counterG s) as [num|num|].
    + destruct (recv_progress (failures s) (or_intror Hfc)) as [[[failure|] f'] Hr];
        rewrite Hr; eexists; eexists; reflexivity.
    + rewrite Hm. eexists. eexists. reflexivity.
    + contradiction.
  - exfalso. apply (Hnot k). reflexivity.
Qed.

(** From every state a run can reach, some schedule takes [runTests] to its
    count. *)
Lemma completes_from (n : nat) (tr : list event) (s : state) :
  0 < numWorkers -> measure s < n -> Inv' tr s ->
  exists sched evs s' k,
    run numWorkers config root sched s = Some (evs, s') /\ mainG s' = MReturned k.
Proof.
  intros Hpos. revert tr s. induction n as [|n IH]; intros tr s Hlt Hinv; [lia|].
  destruct (mainG s) as [p| | | |k] eqn:Hm.
  5: { exists [], [], s, k. split; [reflexivity | exact Hm]. }
  all: destruct (progress tr s Hpos Hinv) as (g & evs & s1 & Hstep);
    [intros k; rewrite Hm; discriminate|].
  all: pose proof (step_decreases g s s1 evs Hstep) as Hdec.
  all: destruct (IH (tr ++ evs) s1) as (sched & evs' & s' & k & Hrun & Hk);
    [lia | apply (step_inv g tr evs s); assumption |].
  all: exists (g :: sched), (evs ++ evs'), s', k; split; [|exact Hk].
  all: simpl; rewrite Hstep, Hrun; reflexivity.
Qed.

Lemma run_app (sched1 sched2 : list goroutine) (s s1 s2 : state) (evs1 evs2 : list event) :
  run numWorkers config root sched1 s = Some (evs1, s1) ->
  run numWorkers config root sched2 s1 = Some (evs2, s2) ->
  run numWorkers config root (sched1 ++ sched2) s = Some (evs1 ++ evs2, s2).
Proof.
  revert s evs1. induction sched1 as [|g sched1 IH]; intros s evs1 H1 H2; simpl in *.
  - injection H1 as <- <-. exact H2.
  - destruct (step numWorkers config root g s) as [[e0 s0]|]; [|discriminate].
    destruct (run numWorkers config root sched1 s0) as [[e1 s1']|] eqn:Hr; [|discriminate].
    injection H1 as <- <-.
    rewrite (IH s0 e1 Hr H2). rewrite app_assoc. reflexivity.
Qed.

(** Every schedule that has run so far extends to a whole run. *)
Lemma run_extends (sched : list goroutine) (tr : list event) (s : state) :
  0 < numWorkers ->
  run numWorkers config root sched (init numWorkers expects) = Some (tr, s) ->
  exists sched' tr' s' k,
    run numWorkers config root (sched ++ sched') (init numWorkers expects)
      = Some (tr ++ tr', s') /\
    mainG s' = MReturned k.
Proof.
  intros Hpos Hrun.
  destruct (completes_from (S (measure s)) tr s Hpos (Nat.lt_succ_diag_r _)
              (reachable_inv sched tr s Hrun))
    as (sched' & tr' & s' & k & Hrun' & Hk).
  exists sched', tr', s', k. split; [|exact Hk].
  apply (run_app sched sched' _ s s'); assumption.
Qed.

Lemma dispatch_length (es : list expectation) :
  List.length (dispatch es) = 2 * List.length es.
Proof.
  induction es as [|e es IH]; [reflexivity|].
  change (dispatch (e :: es))
    with (setTestDNS false e :: setTestDNS true e :: dispatch es).
  simpl. rewrite IH. lia.
Qed.

Lemma dispatch_nth (es : list expectation) (i : nat) (e : expectation) :
  nth_error es i = Some e ->
  nth_error (dispatch es) (2 * i) = Some (setTestDNS false e) /\
  nth_error (dispatch es) (2 * i + 1) = Some (setTestDNS true e).
Proof.
  revert i. induction es as [|x es IH]; intros [|i] Hnth; simpl in Hnth; try discriminate.
  - injection Hnth as ->. split; reflexivity.
  - destruct (IH i Hnth) as [H0 H1].
    replace (2 * S i) with (S (S (2 * i))) by lia.
    replace (S (S (2 * i)) + 1) with (S (S (2 * i + 1))) by lia.
    split; simpl; assumption.
Qed.

(** Each step has one event, and the close of [work] is the step of
    [runTests] out of its dispatch loop. *)
Lemma step_event (g : goroutine) (s s' : state) (evs : list event) :
  step numWorkers config root g s = Some (evs, s') ->
  exists ev, evs = [ev] /\ (ev = EvCloseWork -> mainG s = MSend []).
Proof.
  destruct s as [m ws c w f]. destruct g as [|i|]; simpl.
  - unfold stepMain; simpl. destruct m as [[|test rest]| | | |k]; try discriminate.
    + intros [= <- <-]. eexists. split; [reflexivity | auto].
    + destruct (send numWorkers test w); [|discriminate].
      intros [= <- <-]. eexists. split; [reflexivity | discriminate].
    + destruct (forallb isDone ws); [|discriminate].
      intros [= <- <-]. eexists. split; [reflexivity | discriminate].
    + intros [= <- <-]. eexists. split; [reflexivity | discriminate].
  - unfold stepWorker; simpl.
    destruct (nth_error ws i) as [[|test|test|]|]; try discriminate.
    + destruct (recv w) as [[[test|] w']|]; try discriminate;
        intros [= <- <-]; eexists; (split; [reflexivity | discriminate]).
    + intros [= <- <-]. eexists. split; [reflexivity | discriminate].
    + destruct (send numWorkers test f); [|discriminate].
      intros [= <- <-]. eexists. split; [reflexivity | discriminate].
  - unfold stepCounter; simpl. destruct c as [num|num|]; try discriminate.
    + destruct (recv f) as [[[failure|] f']|]; try discriminate;
        intros [= <- <-]; eexists; (split; [reflexivity | discriminate]).
    + destruct m; try discriminate.
      intros [= <- <-]. eexists. split; [reflexivity | discriminate].
Qed.

Lemma snoc_split {A : Type} (l l1 l2 : list A) (x y : A) :
  l ++ [x] = l1 ++ y :: l2 ->
  (l2 = [] /\ l = l1 /\ x = y) \/ (exists l2', l2 = l2' ++ [x] /\ l = l1 ++ y :: l2').
Proof.
  intros Heq. destruct l2 as [|a l2 _] using rev_ind.
  - left. apply app_inj_tail in Heq as [-> ->]. auto.
  - right. exists l2.
    change (l1 ++ y :: l2 ++ [a]) with (l1 ++ (y :: l2) ++ [a]) in Heq.
    rewrite app_assoc in Heq. apply app_inj_tail in Heq as [-> ->]. auto.
Qed.

Lemma step_close_order (g : goroutine) (tr evs : list event) (s s' : state) :
  Inv' tr s ->
  (forall tr1 tr2, tr = tr1 ++ EvCloseWork :: tr2 -> sentWork tr1 = dispatch expects) ->
  step numWorkers config root g s = Some (evs, s') ->
  forall tr1 tr2, tr ++ evs = tr1 ++ EvCloseWork :: tr2 -> sentWork tr1 = dispatch expects.
Proof.
  intros Hinv Hord Hstep tr1 tr2 Heq.
  destruct (step_event g s s' evs Hstep) as (ev & -> & Hclose).
  apply snoc_split in Heq as [(_ & <- & Hev)|(tr2' & _ & Heq)].
  - pose proof (inv_sent _ _ _ _ _ _ Hinv) as Hsent.
    rewrite (Hclose Hev) in Hsent. simpl in Hsent. rewrite app_nil_r in Hsent. exact Hsent.
  - apply (Hord tr1 tr2'). exact Heq.
Qed.

Lemma run_close_order (sched : list goroutine) (tr evs : list event) (s s' : state) :
  Inv' tr s ->
  (forall tr1 tr2, tr = tr1 ++ EvCloseWork :: tr2 -> sentWork tr1 = dispatch expects) ->
  run numWorkers config root sched s = Some (evs, s') ->
  forall tr1 tr2, tr ++ evs = tr1 ++ EvCloseWork :: tr2 -> sentWork tr1 = dispatch expects.
Proof.
  revert tr evs s. induction sched as [|g sched IH]; intros tr evs s Hinv Hord Hrun;
    simpl in Hrun.
  - injection Hrun as <- <-. rewrite app_nil_r. exact Hord.
  - destruct (step numWorkers config root g s) as [[evs1 s1]|] eqn:Hstep; [|discriminate].
    destruct (run numWorkers config root sched s1) as [[evs2 s2]|] eqn:Hrest; [|discriminate].
    injection Hrun as <- <-. rewrite app_assoc.
    apply (IH (tr ++ evs1) evs2 s1).
    + apply (step_inv g tr evs1 s); assumption.
    + apply (step_close_order g tr evs1 s s1); assumption.
    + exact Hrest.
Qed.

(** [runTests] never sends on a closed channel: while it is in its
    dispatch loop [work] is open, and while a worker is at its send
    [failures] is open. *)
Lemma send_never_on_closed (sched : list goroutine) (tr : list event) (s : state) :
  run numWorkers config root sched (init numWorkers expects) = Some (tr, s) ->
  (forall pending, mainG s = MSend pending -> closed (work s) = false) /\
  (forall i f, nth_error (workers s) i = Some (WSend f) -> closed (failures s) = false).
Proof.
  intros Hrun. pose proof (reachable_inv sched tr s Hrun) as Hinv.
  pose proof (inv_wclosed _ _ _ _ _ _ Hinv) as Hwc.
  pose proof (inv_fclosed _ _ _ _ _ _ Hinv) as Hfc.
  pose proof (inv_waited _ _ _ _ _ _ Hinv) as Hwait.
  split.
  - intros pending Hm. rewrite Hm in Hwc. exact Hwc.
  - intros i f Hnth. rewrite Hfc.
    destruct (mainG s); auto;
      pose proof (forallb_isDone_nth _ i _ Hwait Hnth); discriminate.
Qed.

(** C5, as the code has it: in a whole run every dispatched trial is
    received by a worker once, in dispatch order, and run once; a trial is
    reported to failureCounter once when it fails (a mismatch or an error)
    and not at all when it matches or is skipped; every report sent on
    failures is received and printed once. *)
Theorem failing_trials_reported_once
    (sched : list goroutine) (tr : list event) (s : state) (k : nat) :
  0 < numWorkers ->
  run numWorkers config root sched (init numWorkers expects) = Some (tr, s) ->
  mainG s = MReturned k ->
  receivedWork tr = dispatch expects /\
  Permutation (executed tr) (dispatch expects) /\
  reported tr = sentFailures tr /\
  Permutation (reported tr) (failuresOf config root (dispatch expects)) /\
  (forall t, failuresOf config root [t] =
             match runTest config root t with Some f => [f] | None => [] end) /\
  (forall t, testDNS t = false -> failuresOf config root [t] = []).
Proof.
  intros Hpos Hrun Hret.
  destruct (whole_run sched tr s k Hpos Hrun Hret) as (_ & Hrecv & Hexec & Hperm & _).
  pose proof (reachable_inv sched tr s Hrun) as Hinv.
  split; [exact Hrecv|]. split; [exact Hexec|]. split.
  - pose proof (inv_rep _ _ _ _ _ _ Hinv) as Hrep.
    pose proof (inv_drained _ _ _ _ _ _ Hinv) as Hdr.
    pose proof (inv_ret _ _ _ _ _ _ Hinv) as Hr.
    rewrite Hret in Hr. destruct Hr as [Hc _]. rewrite Hc in Hdr.
    destruct Hdr as [_ Hbuf]. rewrite Hbuf, app_nil_r in Hrep. exact Hrep.
  - split; [exact Hperm|]. split.
    + intros t. unfold failuresOf. simpl. apply app_nil_r.
    + intros t Hip. unfold failuresOf, runTest. simpl. rewrite Hip. reflexivity.
Qed.

(** C8: the dispatch loop makes two trials of every expectation, the IP
    trial and then the DNS trial, 2 * len(expectations) in all, and all of
    them are sent on work before work is closed: in every trace the sends
    before the close are exactly these trials, in order, and none follows. *)
Theorem dispatch_two_trials_each :
  List.length (dispatch expects) = 2 * List.length expects /\
  (forall i e, nth_error expects i = Some e ->
     nth_error (dispatch expects) (2 * i) = Some (setTestDNS false e) /\
     nth_error (dispatch expects) (2 * i + 1) = Some (setTestDNS true e)) /\
  (forall sched tr s,
     run numWorkers config root sched (init numWorkers expects) = Some (tr, s) ->
     (closed (work s) = true -> sentWork tr = dispatch expects) /\
     (forall tr1 tr2, tr = tr1 ++ EvCloseWork :: tr2 ->
        sentWork tr1 = dispatch expects /\ sentWork tr2 = [])).
Proof.
  split; [apply dispatch_length|]. split; [apply dispatch_nth|].
  intros sched tr s Hrun.
  pose proof (reachable_inv sched tr s Hrun) as Hinv.
  pose proof (inv_sent _ _ _ _ _ _ Hinv) as Hsent.
  split.
  - intros Hcl. pose proof (inv_wclosed _ _ _ _ _ _ Hinv) as Hwc.
    rewrite Hcl in Hwc. destruct (mainG s); try discriminate;
      simpl in Hsent; rewrite app_nil_r in Hsent; exact Hsent.
  - intros tr1 tr2 Heq.
    assert (H1 : sentWork tr1 = dispatch expects).
    { apply (run_close_order sched [] tr (init numWorkers expects) s init_inv)
        with (tr1 := tr1) (tr2 := tr2); [|exact Hrun|exact Heq].
      intros t1 t2 Hnil. destruct t1; discriminate. }
    split; [exact H1|].
    rewrite Heq, sentWork_app in Hsent. simpl in Hsent.
    rewrite H1, <- app_assoc in Hsent.
    rewrite <- (app_nil_r (dispatch expects)) in Hsent at 2.
    apply app_inv_head in Hsent. apply app_eq_nil in Hsent as [Hnil _]. exact Hnil.
Qed.

End Safety.


(** C6: for one corpus on one platform (Verify and the file reads being
    functions of their arguments), any two whole runs, under any two
    schedules of the goroutines and any two pool sizes of at least one
    worker, end with the same failure count and print the same failures up
    to their order: those the trials produce. *)
Theorem verdict_independent_of_schedule `{Platform}
    (config : configFile) (root : Certificate) (expects : list expectation)
    (n1 n2 : nat) (sched1 sched2 : list goroutine)
    (tr1 tr2 : list event) (s1 s2 : state) (k1 k2 : nat) :
  0 < n1 -> 0 < n2 ->
  run n1 config root sched1 (init n1 expects) = Some (tr1, s1) ->
  mainG s1 = MReturned k1 ->
  run n2 config root sched2 (init n2 expects) = Some (tr2, s2) ->
  mainG s2 = MReturned k2 ->
  k1 = k2 /\
  Permutation (reported tr1) (reported tr2) /\
  k1 = List.length (failuresOf config root (dispatch expects)).
Proof.
  intros Hn1 Hn2 Hrun1 Hret1 Hrun2 Hret2.
  destruct (whole_run n1 config root expects sched1 tr1 s1 k1 Hn1 Hrun1 Hret1)
    as (_ & _ & _ & Hp1 & ->).
  destruct (whole_run n2 config root expects sched2 tr2 s2 k2 Hn2 Hrun2 Hret2)
    as (_ & _ & _ & Hp2 & ->).
  split; [|split].
  - rewrite (Permutation_length Hp1), (Permutation_length Hp2). reflexivity.
  - apply Permutation_trans with (failuresOf config root (dispatch expects));
      [exact Hp1 | apply Permutation_sym; exact Hp2].
  - apply Permutation_length. exact Hp1.
Qed.

Lemma verdict_independent_of_schedule_witness :
  exists tr1 s1 tr2 s2,
    @run (examplePlatform true [expect8; expect10]) 2 exampleConfig exampleRoot
         scheduleTwoWorkers (init 2 [expect8; expect10]) = Some (tr1, s1) /\
    @run (examplePlatform true [expect8; expect10]) 1 exampleConfig exampleRoot
         scheduleOneWorker (init 1 [expect8; expect10]) = Some (tr2, s2) /\
    map Id (executed tr1) = [8%Z; 10%Z; 10%Z; 8%Z] /\
    map Id (executed tr2) = [8%Z; 8%Z; 10%Z; 10%Z] /\
    map Id (reported tr1) = [10%Z; 8%Z] /\
    map Id (reported tr2) = [8%Z; 10%Z] /\
    (2 = 2 /\
     Permutation (reported tr1) (reported tr2) /\
     2 = List.length (@failuresOf (examplePlatform true [expect8; expect10])
                        exampleConfig exampleRoot (dispatch [expect8; expect10]))).
Proof.
  do 4 eexists.
  split; [cbv; reflexivity|]. split; [cbv; reflexivity|].
  split; [reflexivity|]. split; [reflexivity|].
  split; [reflexivity|]. split; [reflexivity|].
  eapply (@verdict_independent_of_schedule (examplePlatform true [expect8; expect10])
           exampleConfig exampleRoot [expect8; expect10] 2 1
           scheduleTwoWorkers scheduleOneWorker).
  - lia.
  - lia.
  - cbv. reflexivity.
  - reflexivity.
  - cbv. reflexivity.
  - reflexivity.
Defined.

Lemma failing_trials_reported_once_witness :
  exists tr s,
    @run (examplePlatform true [expect8; expect10]) 2 exampleConfig exampleRoot
         scheduleTwoWorkers (init 2 [expect8; expect10]) = Some (tr, s) /\
    receivedWork tr = dispatch [expect8; expect10] /\
    Permutation (executed tr) (dispatch [expect8; expect10]) /\
    reported tr = sentFailures tr /\
    Permutation (reported tr)
      (@failuresOf (examplePlatform true [expect8; expect10]) exampleConfig exampleRoot
         (dispatch [expect8; expect10])).
Proof.
  do 2 eexists. split; [cbv; reflexivity|].
  edestruct (@failing_trials_reported_once (examplePlatform true [expect8; expect10])
               2 exampleConfig exampleRoot [expect8; expect10] scheduleTwoWorkers)
    as (Hrecv & Hexec & Hrep & Hperm & _).
  - lia.
  - cbv. reflexivity.
  - reflexivity.
  - split; [exact Hrecv|]. split; [exact Hexec|]. split; [exact Hrep | exact Hperm].
Defined.

(** C5 as stated fails: in this whole run two trials are dispatched, the
    skipped IP trial and the matching DNS trial of [expect7], and no report
    reaches [failureCounter]. *)
Lemma matching_and_skipped_trials_unreported :
  option_map (fun r => (sentWork (fst r), reported (fst r), mainG (snd r)))
    (@run (examplePlatform true [expect7]) 2 exampleConfig exampleRoot
          scheduleOneExpectation (init 2 [expect7]))
  = Some ([setTestDNS false expect7; setTestDNS true expect7], [], MReturned 0).
Proof. vm_compute. reflexivity. Qed.

Lemma dispatch_two_trials_each_witness :
  List.length (dispatch [expect8; expect10]) = 4 /\
  exists tr s,
    @run (examplePlatform true [expect8; expect10]) 2 exampleConfig exampleRoot
         scheduleTwoWorkers (init 2 [expect8; expect10]) = Some (tr, s) /\
    sentWork tr = [setTestDNS false expect8; setTestDNS true expect8;
                   setTestDNS false expect10; setTestDNS true expect10].
Proof.
  destruct (@dispatch_two_trials_each (examplePlatform true [expect8; expect10])
              2 exampleConfig exampleRoot [expect8; expect10]) as (Hlen & _ & Hruns).
  split; [exact Hlen|].
  do 2 eexists. split; [cbv; reflexivity|].
  edestruct (Hruns scheduleTwoWorkers) as [Hclosed _]; [cbv; reflexivity|].
  exact (Hclosed eq_refl).
Defined.

(** * Properties of [main] and of the output *)

Lemma lineCount_append (a b : string) :
  lineCount (a ++ b) = lineCount a + lineCount b.
Proof.
  induction a as [|c a IH]; simpl; [reflexivity|]. rewrite IH. lia.
Qed.

Lemma lineCount_uint (u : Decimal.uint) : lineCount (NilEmpty.string_of_uint u) = 0.
Proof. induction u; simpl; auto. Qed.

Lemma lineCount_Itoa (n : Z) : lineCount (Itoa n) = 0.
Proof.
  unfold Itoa, NilZero.string_of_int, NilZero.string_of_uint.
  destruct (Z.to_int n) as [u|u]; destruct u; simpl; rewrite ?lineCount_uint; reflexivity.
Qed.

Lemma lineCount_quoteByte (c : ascii) : lineCount (quoteByte c) = 0.
Proof. destruct c as [[] [] [] [] [] [] [] []]; reflexivity. Qed.

Lemma lineCount_quoteASCII (s : string) : lineCount (quoteASCII s) = 0.
Proof.
  unfold quoteASCII. rewrite !lineCount_append.
  change (lineCount doubleQuote) with 0. simpl.
  rewrite Nat.add_0_r.
  induction s as [|c s IH]; [reflexivity|].
  simpl map. destruct (list_ascii_of_string s) as [|c' l] eqn:Hl.
  - simpl. apply lineCount_quoteByte.
  - change (String.concat "" (quoteByte c :: map quoteByte (c' :: l)))
      with (quoteByte c ++ "" ++ String.concat "" (map quoteByte (c' :: l)))%string.
    rewrite !lineCount_append, lineCount_quoteByte, IH. reflexivity.
Qed.

Section Output.
Context `{Platform}.
Hypothesis Quote_one_line : forall s, lineCount (Quote s) = 0.

Lemma lineCount_failureReport (failure : expectation) :
  lineCount (failureReport failure) = 3.
Proof.
  unfold failureReport. rewrite !lineCount_append.
  rewrite lineCount_Itoa, Quote_one_line.
  assert (Ht : lineCount (testType failure) = 0)
    by (unfold testType; destruct (testDNS failure); reflexivity).
  assert (He : lineCount (quoteErr (err failure)) = 0)
    by (unfold quoteErr; destruct (err failure); [apply Quote_one_line | reflexivity]).
  rewrite Ht, He. reflexivity.
Qed.

Lemma lineCount_reports (l : list expectation) :
  lineCount (String.concat "" (map failureReport l)) = 3 * List.length l.
Proof.
  induction l as [|f l IH]; [reflexivity|].
  destruct l as [|f' l'].
  - change (String.concat "" (map failureReport [f])) with (failureReport f).
    rewrite lineCount_failureReport. reflexivity.
  - change (String.concat "" (map failureReport (f :: f' :: l')))
      with (failureReport f ++ "" ++ String.concat "" (map failureReport (f' :: l')))%string.
    rewrite !lineCount_append, lineCount_failureReport, IH. simpl. lia.
Qed.

End Output.



(** A run with two failures exits with status 1. *)
Example failing_run_exits_1 :
  option_map (fun out => (exitCode out, stderr out))
    (@main (examplePlatform true [expect8; expect10]) 1 scheduleTwoWorkers)
  = Some (1%Z, ("failed 2 of 2 tests" ++ newline)%string).
Proof. vm_compute. reflexivity. Qed.


(** C9, as the code has it: failureCounter prints one report for every
    failure it receives, and a whole run has one for every failed trial;
    the report is three lines, [#<id>: failed for <IP|DNS>:], then the
    error under %q ([%!q(<nil>)] when the trial carries none), then the
    space-joined descriptions under %q, the last two indented by two
    spaces. The three lines hold for a Quote that escapes newlines, as
    strconv.Quote does. *)
Theorem failure_printed_as_three_lines `{Platform} :
  (forall s, lineCount (Quote s) = 0) ->
  (forall failure,
     failureReport failure =
       ("#" ++ Itoa (Id failure) ++ ": failed for " ++
        (if testDNS failure then "DNS" else "IP") ++ ":" ++ newline ++
        "  " ++ match err failure with
                | Some e => Quote (Error e)
                | None => "%!q(<nil>)"
                end ++ newline ++
        "  " ++ Quote (String.concat " " (descriptions failure)) ++ newline)%string /\
     lineCount (failureReport failure) = 3) /\
  (forall numWorkers config root expects sched tr s k,
     0 < numWorkers ->
     run numWorkers config root sched (init numWorkers expects) = Some (tr, s) ->
     mainG s = MReturned k ->
     printed tr = String.concat "" (map failureReport (reported tr)) /\
     Permutation (reported tr) (failuresOf config root (dispatch expects)) /\
     lineCount (printed tr) = 3 * k).
Proof.
  intros Hq. split.
  - intros failure. split; [reflexivity | apply lineCount_failureReport; exact Hq].
  - intros numWorkers config root expects sched tr s k Hpos Hrun Hret.
    destruct (whole_run numWorkers config root expects sched tr s k Hpos Hrun Hret)
      as (_ & _ & _ & Hperm & ->).
    split; [reflexivity|]. split; [exact Hperm|].
    unfold printed. apply lineCount_reports. exact Hq.
Qed.

Lemma failure_printed_as_three_lines_witness :
  lineCount (@failureReport (examplePlatform false [expect9]) exampleFailure) = 3.
Proof.
  destruct (@failure_printed_as_three_lines (examplePlatform false [expect9])
              lineCount_quoteASCII) as [Hreport _].
  exact (proj2 (Hreport exampleFailure)).
Defined.

(** C9 as stated fails: the report of the failed DNS trial of [expect9] is
    not the one line of the specification but three lines, with the error
    and the descriptions quoted. *)
Lemma report_is_not_one_line :
  @runTest (examplePlatform false [expect9]) exampleConfig exampleRoot
           (setTestDNS true expect9) = Some exampleFailure /\
  @specReportLine (examplePlatform false [expect9]) exampleFailure =
    ("#9: failed for DNS: x509: certificate is not valid for any names " ++
     ipViolation)%string /\
  @failureReport (examplePlatform false [expect9]) exampleFailure =
    ("#9: failed for DNS:" ++ newline ++
     "  " ++ doubleQuote ++ "x509: certificate is not valid for any names" ++
       doubleQuote ++ newline ++
     "  " ++ doubleQuote ++ ipViolation ++ doubleQuote ++ newline)%string /\
  @failureReport (examplePlatform false [expect9]) exampleFailure <>
    (@specReportLine (examplePlatform false [expect9]) exampleFailure ++ newline)%string /\
  lineCount (@failureReport (examplePlatform false [expect9]) exampleFailure) = 3.
Proof.
  split; [vm_compute; reflexivity|]. split; [vm_compute; reflexivity|].
  split; [vm_compute; reflexivity|]. split; [|vm_compute; reflexivity].
  vm_compute. discriminate.
Qed.

(** * The trial and the decision

    A DNS trial whose files load with a single leaf is sent to failures
    exactly when the evaluator fails or Verify disagrees with mustSucceed;
    the failure carries the evaluator's or Verify's error, and none when
    Verify succeeded against the expectation. *)
Lemma runTest_decided `{Platform} (config : configFile) (root : Certificate)
    (test : expectation) (chain : list Certificate) (leaf0 : Certificate) :
  testDNS test = true ->
  readPEMChain (Join [baseDir; "certificates"; (Itoa (Id test) ++ ".chain")%string])
    = inr chain ->
  readPEMChain (Join [baseDir; "certificates"; (Itoa (Id test) ++ ".crt")%string])
    = inr [leaf0] ->
  runTest config root test =
    match mustSucceed (expectedResult.Result (DNS test)) (descriptions test),
          Verify leaf0 [root] chain (Hostname config) with
    | inl e, _ => Some (setErr e test)
    | inr true, None => None
    | inr true, Some e => Some (setErr e test)
    | inr false, None => Some test
    | inr false, Some _ => None
    end.
Proof.
  intros Hdns Hchain Hleaf. unfold runTest, mustSucceed.
  rewrite Hdns, Hchain, Hleaf. simpl negb. cbv iota.
  destruct (evalExpected _ _) as [e|[|]];
    destruct (Verify leaf0 [root] chain (Hostname config)); reflexivity.
Qed.

(** * The end-to-end scenarios *)

(** Expectation 7, DNS result OK, Verify succeeds: nothing is sent to
    failures. *)
Example scenario_ok_success :
  @runTest (examplePlatform true [expect7]) exampleConfig exampleRoot
           (setTestDNS true expect7) = None.
Proof. vm_compute. reflexivity. Qed.

(** Expectation 8, DNS result ERROR, Verify succeeds: the trial is sent to
    failures, without an error of its own. *)
Example scenario_error_success :
  @runTest (examplePlatform true [expect8]) exampleConfig exampleRoot
           (setTestDNS true expect8) = Some (setTestDNS true expect8).
Proof. vm_compute. reflexivity. Qed.

(** Expectation 9, WEAK-OK for a non-fatal reason: no failure when Verify
    succeeds, a failure carrying Verify's error when it does not. *)
Example scenario_weakOK_nonFatal :
  @runTest (examplePlatform true [expect9]) exampleConfig exampleRoot
           (setTestDNS true expect9) = None /\
  @runTest (examplePlatform false [expect9]) exampleConfig exampleRoot
           (setTestDNS true expect9) = Some exampleFailure.
Proof. split; vm_compute; reflexivity. Qed.

(** The IP trial of any expectation is skipped. *)
Lemma ip_trial_skipped `{Platform} (config : configFile) (root : Certificate)
    (e : expectation) :
  runTest config root (setTestDNS false e) = None.
Proof. reflexivity. Qed.

(** * Further properties of the expectation evaluator *)

(** What the scan does, by the first tag that is not non-fatal. *)
Lemma scan_cases (descs : list string) (b : bool) :
  (forallb nonFatal descs = true /\
   scanDescriptions descs b = inr (match descs with [] => b | _ => false end)) \/
  (exists pre d post,
     descs = pre ++ d :: post /\ forallb nonFatal pre = true /\ nonFatal d = false /\
     scanDescriptions descs b =
       if fatal d then inr true else inl (ErrUnknownDescription d)).
Proof.
  revert b. induction descs as [|x descs IH]; intros b.
  - left. split; reflexivity.
  - destruct (nonFatal x) eqn:Hx.
    + destruct (IH false) as [[Hall Hscan]|(pre & d & post & -> & Hpre & Hd & Hscan)].
      * left. split; [simpl; rewrite Hx; exact Hall|].
        simpl. rewrite Hx, Hscan. destruct descs; reflexivity.
      * right. exists (x :: pre), d, post. split; [reflexivity|].
        split; [simpl; rewrite Hx; exact Hpre|]. split; [exact Hd|].
        simpl. rewrite Hx. exact Hscan.
    + right. exists [], x, descs. split; [reflexivity|]. split; [reflexivity|].
      split; [exact Hx|]. simpl. rewrite Hx. reflexivity.
Qed.

(** X1: the evaluator answers "unknown expected result", naming the result
    code, exactly for the codes other than ERROR, OK and WEAK-OK, whatever
    the descriptions. *)
Theorem unknown_result_code_iff (result : string) (descs : list string) :
  evalExpected result descs = inl (ErrUnknownExpectedResult result) <->
  result <> "ERROR" /\ result <> "OK" /\ result <> "WEAK-OK".
Proof.
  unfold evalExpected.
  destruct (String.eqb_spec result "ERROR") as [->|He].
  { simpl. split; [discriminate | intros (Hne & _); contradiction]. }
  destruct (String.eqb_spec result "OK") as [->|Ho].
  { simpl. split; [discriminate | intros (_ & Hne & _); contradiction]. }
  destruct (String.eqb_spec result "WEAK-OK") as [->|Hw].
  - split; [|intros (_ & _ & Hne); contradiction].
    destruct descs as [|d descs]; [discriminate|]. simpl Nat.eqb. cbv iota.
    destruct (scan_cases (d :: descs) false)
      as [[_ Hscan]|(pre & x & post & _ & _ & _ & Hscan)]; rewrite Hscan.
    + discriminate.
    + destruct (fatal x); discriminate.
  - split; [auto | reflexivity].
Qed.

(** X2: under WEAK-OK mustSucceed is true exactly when the combined
    description list is not empty and holds non-fatal tags only. *)
Theorem weakOK_must_succeed_iff (descs : list string) :
  mustSucceed "WEAK-OK" descs = inr true <->
  descs <> [] /\ forallb nonFatal descs = true.
Proof.
  split.
  - destruct descs as [|d descs]; [discriminate|].
    unfold mustSucceed. rewrite weakOK_nonempty by discriminate.
    destruct (scan_cases (d :: descs) false)
      as [[Hall _]|(pre & x & post & _ & _ & _ & Hscan)].
    + intros _. split; [discriminate | exact Hall].
    + rewrite Hscan. destruct (fatal x); discriminate.
  - intros [Hne Hall]. apply weakOK_nonFatal_must_succeed; assumption.
Qed.

(** X3: under WEAK-OK mustSucceed is false exactly when the fatal tag
    occurs with non-fatal tags only before it: neither an empty list nor
    one whose first tag that is not non-fatal is unrecognized makes
    verification required to fail. *)
Theorem weakOK_must_fail_iff (descs : list string) :
  mustSucceed "WEAK-OK" descs = inr false <->
  exists pre post, descs = pre ++ cnWithSANs :: post /\ forallb nonFatal pre = true.
Proof.
  split.
  - destruct descs as [|d descs]; [discriminate|].
    unfold mustSucceed. rewrite weakOK_nonempty by discriminate.
    destruct (scan_cases (d :: descs) false)
      as [[_ Hscan]|(pre & x & post & Heq & Hpre & _ & Hscan)]; rewrite Hscan.
    + discriminate.
    + destruct (fatal x) eqn:Hx; [|discriminate].
      intros _. exists pre, post. rewrite <- (fatal_is_cnWithSANs x Hx). auto.
  - intros (pre & post & -> & Hpre). unfold mustSucceed.
    rewrite weakOK_nonempty by (destruct pre; discriminate).
    rewrite scan_first_fatal by exact Hpre. reflexivity.
Qed.

(** X4: under WEAK-OK the evaluator fails in two cases only: with "Weak-OK
    without description" exactly for the empty list, and with "unknown
    description" of a tag exactly when that tag is unrecognized and is the
    first of the list that is not non-fatal. *)
Theorem weakOK_error_iff (descs : list string) (e : error) :
  evalExpected "WEAK-OK" descs = inl e <->
  (descs = [] /\ e = ErrWeakOKWithoutDescription) \/
  (exists pre d post,
     descs = pre ++ d :: post /\ forallb nonFatal pre = true /\
     recognized d = false /\ e = ErrUnknownDescription d).
Proof.
  split.
  - destruct descs as [|x descs].
    + intros [= <-]. left. auto.
    + rewrite weakOK_nonempty by discriminate.
      destruct (scan_cases (x :: descs) false)
        as [[_ Hscan]|(pre & d & post & Heq & Hpre & Hd & Hscan)]; rewrite Hscan.
      * discriminate.
      * destruct (fatal d) eqn:Hf; [discriminate|].
        intros [= <-]. right. exists pre, d, post.
        unfold recognized. rewrite Hd, Hf. auto.
  - intros [[-> ->]|(pre & d & post & -> & Hpre & Hd & ->)].
    + reflexivity.
    + rewrite weakOK_nonempty by (destruct pre; discriminate).
      apply scan_first_unknown; assumption.
Qed.

Lemma unknown_result_code_iff_witness :
  evalExpected "WEAK_OK" [ipViolation] = inl (ErrUnknownExpectedResult "WEAK_OK").
Proof.
  apply (proj2 (unknown_result_code_iff "WEAK_OK" [ipViolation])).
  repeat split; discriminate.
Defined.

Lemma weakOK_must_succeed_iff_witness :
  mustSucceed "WEAK-OK" [ipViolation; noIPGiven; dnsInCNViolation] = inr true.
Proof.
  apply (proj2 (weakOK_must_succeed_iff [ipViolation; noIPGiven; dnsInCNViolation])).
  split; [discriminate | vm_compute; reflexivity].
Defined.

Lemma weakOK_must_fail_iff_witness :
  mustSucceed "WEAK-OK" ([ipViolation] ++ cnWithSANs :: ["bogus"]) = inr false.
Proof.
  apply (proj2 (weakOK_must_fail_iff ([ipViolation] ++ cnWithSANs :: ["bogus"]))).
  exists [ipViolation], ["bogus"]. split; [reflexivity | vm_compute; reflexivity].
Defined.

Lemma weakOK_error_iff_witness :
  evalExpected "WEAK-OK" ([ipViolation] ++ "bogus" :: [cnWithSANs])
    = inl (ErrUnknownDescription "bogus").
Proof.
  apply (proj2 (weakOK_error_iff ([ipViolation] ++ "bogus" :: [cnWithSANs])
                  (ErrUnknownDescription "bogus"))).
  right. exists [ipViolation], "bogus", [cnWithSANs].
  repeat split; vm_compute; reflexivity.
Defined.

(** * Further properties of the trial *)

Section Trial.
Context `{Platform}.
Variable config : configFile.
Variable root : Certificate.

Local Abbreviation chainPath test :=
  (Join [baseDir; "certificates"; (Itoa (Id test) ++ ".chain")%string]).
Local Abbreviation leafPath test :=
  (Join [baseDir; "certificates"; (Itoa (Id test) ++ ".crt")%string]).

Lemma runTest_Some (test f : expectation) :
  runTest config root test = Some f ->
  testDNS test = true /\ (f = test \/ exists e, f = setErr e test).
Proof.
  unfold runTest. destruct (testDNS test); [|discriminate]. simpl negb. cbv iota.
  intros Hrun. split; [reflexivity|].
  destruct (readPEMChain _) as [e|chain]; [injection Hrun as <-; eauto|].
  destruct (readPEMChain _) as [e|leaf]; [injection Hrun as <-; eauto|].
  destruct leaf as [|leaf0 [|leaf1 leaf]]; try (injection Hrun as <-; eauto; fail).
  destruct (evalExpected _ _) as [e|[|]]; [injection Hrun as <-; eauto| |];
    destruct (Verify _ _ _ _); try discriminate; injection Hrun as <-; eauto.
Qed.

(** X5: whatever [worker] sends to failures is the DNS trial it was
    given, with at most its error set: the id, the expectations and the
    descriptions printed for a failure are those of the trial, and no IP
    trial is ever sent. *)
Theorem failure_is_the_dns_trial (test f : expectation) :
  runTest config root test = Some f ->
  testDNS test = true /\ testDNS f = true /\ Id f = Id test /\
  IP f = IP test /\ DNS f = DNS test /\
  descriptions f = descriptions test /\
  (err f = err test \/ exists e, err f = Some e).
Proof.
  intros Hrun. destruct (runTest_Some test f Hrun) as [Hdns [->|[e ->]]].
  - repeat split; auto.
  - unfold descriptions. simpl. repeat split; eauto.
Qed.

(** A DNS trial whose chain file cannot be read, or whose leaf file
    cannot be read or does not hold exactly one certificate, is sent to
    failures with that error, whatever its expected result and whatever
    Verify would answer; the chain is read first, so its error wins. *)
Theorem infrastructure_error_fails_trial (test : expectation) :
  testDNS test = true ->
  (forall e, readPEMChain (chainPath test) = inl e ->
     runTest config root test = Some (setErr e test)) /\
  (forall chain e, readPEMChain (chainPath test) = inr chain ->
     readPEMChain (leafPath test) = inl e ->
     runTest config root test = Some (setErr e test)) /\
  (forall chain leaf, readPEMChain (chainPath test) = inr chain ->
     readPEMChain (leafPath test) = inr leaf ->
     List.length leaf <> 1 ->
     runTest config root test
       = Some (setErr (ErrSingleCertificate (List.length leaf)) test)).
Proof.
  intros Hdns. unfold runTest. rewrite Hdns. simpl negb. cbv iota.
  split; [|split].
  - intros e ->. reflexivity.
  - intros chain e -> ->. reflexivity.
  - intros chain leaf -> -> Hlen.
    destruct leaf as [|leaf0 [|leaf1 leaf]]; [reflexivity | | reflexivity].
    exfalso. apply Hlen. reflexivity.
Qed.

(** X6: a DNS trial whose files load with a single leaf goes unreported
    exactly when the evaluator gives a decision and Verify agrees with it:
    it succeeds where mustSucceed is true, it fails where mustSucceed is
    false. *)
Theorem trial_unreported_iff_match
    (test : expectation) (chain : list Certificate) (leaf0 : Certificate) :
  testDNS test = true ->
  readPEMChain (chainPath test) = inr chain ->
  readPEMChain (leafPath test) = inr [leaf0] ->
  (runTest config root test = None <->
   (mustSucceed (expectedResult.Result (DNS test)) (descriptions test) = inr true /\
    Verify leaf0 [root] chain (Hostname config) = None) \/
   (mustSucceed (expectedResult.Result (DNS test)) (descriptions test) = inr false /\
    exists e, Verify leaf0 [root] chain (Hostname config) = Some e)).
Proof.
  intros Hdns Hchain Hleaf.
  rewrite (runTest_decided config root test chain leaf0 Hdns Hchain Hleaf).
  destruct (mustSucceed _ _) as [e|[|]];
    destruct (Verify leaf0 [root] chain (Hostname config)) as [e'|].
  all: split;
    [ try discriminate; intros _; eauto
    | intros [[Hm Hv]|[Hm [x Hv]]]; try discriminate; reflexivity ].
Qed.

(** X7: a failure without an error (printed as %!q(<nil>)) of a trial that
    had none means one thing only: the files loaded with a single leaf,
    the evaluator required verification to fail, and Verify succeeded. *)
Theorem failure_without_error (test f : expectation) :
  err test = None ->
  runTest config root test = Some f ->
  err f = None ->
  f = test /\
  exists chain leaf0,
    readPEMChain (chainPath test) = inr chain /\
    readPEMChain (leafPath test) = inr [leaf0] /\
    mustSucceed (expectedResult.Result (DNS test)) (descriptions test) = inr false /\
    Verify leaf0 [root] chain (Hostname config) = None.
Proof.
  intros Herr Hrun Hnil. unfold runTest in Hrun.
  destruct (testDNS test); [|discriminate]. simpl negb in Hrun. cbv iota in Hrun.
  destruct (readPEMChain (chainPath test)) as [e|chain];
    [injection Hrun as <-; discriminate|].
  destruct (readPEMChain (leafPath test)) as [e|leaf];
    [injection Hrun as <-; discriminate|].
  destruct leaf as [|leaf0 [|leaf1 leaf]]; try (injection Hrun as <-; discriminate).
  unfold mustSucceed.
  destruct (evalExpected _ _) as [e|[|]]; [injection Hrun as <-; discriminate| |];
    destruct (Verify leaf0 [root] chain (Hostname config)) as [e'|] eqn:Hv;
    try discriminate; injection Hrun as <-; try discriminate.
  split; [reflexivity|]. exists chain, leaf0. auto.
Qed.

End Trial.

(** * Further properties of the run *)

Section Liveness.
Context `{Platform}.
Variable numWorkers : nat.
Variable config : configFile.
Variable root : Certificate.
Variable expects : list expectation.

Lemma returned_is_final (tr : list event) (s : state) (k : nat) :
  Inv numWorkers config root expects tr s ->
  mainG s = MReturned k -> ~ canStep numWorkers config root s.
Proof.
  intros Hinv Hret (g & evs & s' & Hstep).
  pose proof (inv_waited _ _ _ _ _ _ Hinv) as Hwait.
  pose proof (inv_ret _ _ _ _ _ _ Hinv) as Hr.
  rewrite Hret in Hwait, Hr. destruct Hr as [Hc _].
  destruct g as [|i|]; simpl in Hstep.
  - unfold stepMain in Hstep. rewrite Hret in Hstep. discriminate.
  - unfold stepWorker in Hstep.
    destruct (nth_error (workers s) i) as [pc|] eqn:Hnth; [|discriminate].
    rewrite (forallb_isDone_nth _ i pc Hwait Hnth) in Hstep. discriminate.
  - unfold stepCounter in Hstep. rewrite Hc in Hstep. discriminate.
Qed.

Lemma measure_init :
  measure (init numWorkers expects) = 10 * List.length expects + numWorkers + 6.
Proof.
  unfold measure, init. simpl.
  rewrite dispatch_length.
  assert (Hw : list_sum (map weightWorker (repeat WRange numWorkers)) = numWorkers).
  { induction numWorkers as [|n IH]; simpl; [reflexivity | rewrite IH; reflexivity]. }
  rewrite Hw. lia.
Qed.

(** X8: with at least one worker the goroutines of runTests never
    deadlock, and none is left running when runTests has its count: in
    every state a run reaches, some goroutine can take a step exactly
    when runTests has not yet received the count. *)
Theorem steps_until_returned (sched : list goroutine) (tr : list event) (s : state) :
  0 < numWorkers ->
  run numWorkers config root sched (init numWorkers expects) = Some (tr, s) ->
  (canStep numWorkers config root s <-> forall k, mainG s <> MReturned k).
Proof.
  intros Hpos Hrun.
  pose proof (reachable_inv numWorkers config root expects sched tr s Hrun) as Hinv.
  split.
  - intros Hcan k Hret.
    exact (returned_is_final tr s k Hinv Hret Hcan).
  - intros Hnot. exact (progress numWorkers config root expects tr s Hpos Hinv Hnot).
Qed.

(** X9: a run cannot go on for ever: no schedule of the goroutines,
    whole or not, has more than 10 * len(expectations) + numWorkers + 6
    steps. *)
Theorem schedule_length_bounded (sched : list goroutine) (tr : list event) (s : state) :
  run numWorkers config root sched (init numWorkers expects) = Some (tr, s) ->
  List.length sched <= 10 * List.length expects + numWorkers + 6.
Proof.
  intros Hrun.
  pose proof (run_bounded numWorkers config root sched _ s tr Hrun) as Hb.
  rewrite measure_init in Hb. lia.
Qed.

(** X10: with at least one worker, however the goroutines have been
    scheduled so far, the run can be continued until runTests has its
    count. *)
Theorem partial_run_completes (sched : list goroutine) (tr : list event) (s : state) :
  0 < numWorkers ->
  run numWorkers config root sched (init numWorkers expects) = Some (tr, s) ->
  exists sched' tr' s' k,
    run numWorkers config root (sched ++ sched') (init numWorkers expects)
      = Some (tr ++ tr', s') /\
    mainG s' = MReturned k.
Proof. apply run_extends. Qed.

(** X11: failures is closed only when every worker has returned and
    every trial has been run: the failures sent before the close are all
    the failures of the corpus, and none is sent later. *)
Theorem failures_closed_after_all_sent
    (sched : list goroutine) (tr : list event) (s : state) :
  0 < numWorkers ->
  run numWorkers config root sched (init numWorkers expects) = Some (tr, s) ->
  closed (failures s) = true ->
  forallb isDone (workers s) = true /\
  Permutation (executed tr) (dispatch expects) /\
  Permutation (sentFailures tr) (failuresOf config root (dispatch expects)) /\
  forall g evs s', step numWorkers config root g s = Some (evs, s') ->
                   sentFailures evs = [].
Proof.
  intros Hpos Hrun Hcl.
  destruct (reachable_inv numWorkers config root expects sched tr s Hrun)
    as [Hsent Hrecv Hexec Hfail Hrep Hnum Hlen Hwc Hdone Hfc Hwait Hdr Hr].
  rewrite Hcl in Hfc.
  assert (Hall : forallb isDone (workers s) = true /\ pendingOf (mainG s) = []).
  { destruct (mainG s); try discriminate; auto. }
  destruct Hall as [Hall Hpend].
  rewrite Hpend, app_nil_r in Hsent.
  assert (Hex : existsb isDone (workers s) = true).
  { destruct (workers s) as [|pc ws]; simpl in *; [lia|].
    apply andb_true_iff in Hall as [-> _]. reflexivity. }
  apply Hdone in Hex as [_ Hwbuf]. rewrite Hwbuf, app_nil_r in Hrecv.
  rewrite (inflight_all_done _ Hall), app_nil_r in Hfail.
  rewrite (running_all_done _ Hall), app_nil_r in Hexec.
  rewrite Hrecv, Hsent in Hexec.
  split; [exact Hall|]. split; [exact Hexec|]. split.
  - apply Permutation_trans with (failuresOf config root (executed tr));
      [exact Hfail | apply failuresOf_Permutation; exact Hexec].
  - intros g evs s' Hstep.
    destruct s as [m ws c w f]. simpl in *.
    destruct g as [|i|]; simpl in Hstep.
    + unfold stepMain in Hstep; simpl in Hstep.
      destruct m as [[|t p]| | | |k]; discriminate.
    + unfold stepWorker in Hstep; simpl in Hstep.
      destruct (nth_error ws i) as [pc|] eqn:Hnth; [|discriminate].
      rewrite (forallb_isDone_nth _ i pc Hall Hnth) in Hstep. discriminate.
    + unfold stepCounter in Hstep; simpl in Hstep.
      destruct c as [num|num|]; try discriminate.
      * destruct (recv f) as [[[fl|] f']|]; try discriminate;
          injection Hstep as <- _; reflexivity.
      * destruct m; try discriminate. injection Hstep as <- _. reflexivity.
Qed.

(** X12: the channels keep their order: at any point of a run the trials
    received so far are the first ones dispatched, in dispatch order, and
    the failures printed so far are the first ones sent, in the order
    sent. *)
Theorem channels_are_fifo (sched : list goroutine) (tr : list event) (s : state) :
  run numWorkers config root sched (init numWorkers expects) = Some (tr, s) ->
  dispatch expects = receivedWork tr ++ buf (work s) ++ pendingOf (mainG s) /\
  sentFailures tr = reported tr ++ buf (failures s).
Proof.
  intros Hrun.
  destruct (reachable_inv numWorkers config root expects sched tr s Hrun)
    as [Hsent Hrecv _ _ Hrep _ _ _ _ _ _ _ _].
  split; [|symmetry; exact Hrep].
  rewrite <- Hsent, <- Hrecv, app_assoc. reflexivity.
Qed.

Lemma failuresOf_dns (tests : list expectation) :
  Forall (fun f => testDNS f = true) (failuresOf config root tests).
Proof.
  induction tests as [|t tests IH]; [constructor|].
  change (failuresOf config root (t :: tests))
    with (match runTest config root t with Some f => [f] | None => [] end
          ++ failuresOf config root tests).
  apply Forall_app. split; [|exact IH].
  destruct (runTest config root t) as [f|] eqn:Hrun; [|constructor].
  constructor; [|constructor].
  destruct (runTest_Some config root t f Hrun) as [Hdns [->|[e ->]]]; exact Hdns.
Qed.

(** X13: at no point of a run has failureCounter printed a report for an
    IP trial: every failure it has received is a DNS trial, so every
    report reads "failed for DNS". *)
Theorem only_dns_failures_reported
    (sched : list goroutine) (tr : list event) (s : state) :
  run numWorkers config root sched (init numWorkers expects) = Some (tr, s) ->
  Forall (fun f => testDNS f = true /\ testType f = "DNS") (reported tr).
Proof.
  intros Hrun.
  destruct (reachable_inv numWorkers config root expects sched tr s Hrun)
    as [_ _ _ Hfail Hrep _ _ _ _ _ _ _ _].
  pose proof (failuresOf_dns (executed tr)) as Hall.
  apply (Permutation_Forall (Permutation_sym Hfail)) in Hall.
  apply Forall_app in Hall as [Hall _].
  rewrite <- Hrep in Hall. apply Forall_app in Hall as [Hall _].
  apply (Forall_impl _ (P := fun f => testDNS f = true)); [|exact Hall].
  intros f Hf. split; [exact Hf|]. unfold testType. rewrite Hf. reflexivity.
Qed.

End Liveness.

(** * Further properties of [runTests] and [main] *)

Section Verdict.
Context `{Platform}.

(** The expectations whose DNS trial [worker] sends to failures. *)
Lemma failuresOf_dispatch (config : configFile) (root : Certificate)
    (expects : list expectation) :
  failuresOf config root (dispatch expects) =
  flat_map (fun e => match runTest config root (setTestDNS true e) with
                     | Some f => [f]
                     | None => []
                     end) expects.
Proof.
  induction expects as [|e expects IH]; [reflexivity|].
  change (dispatch (e :: expects))
    with ([setTestDNS false e; setTestDNS true e] ++ dispatch expects).
  rewrite failuresOf_app, IH. unfold failuresOf. simpl.
  rewrite app_nil_r. reflexivity.
Qed.

Lemma failuresOf_dispatch_length (config : configFile) (root : Certificate)
    (expects : list expectation) :
  List.length (failuresOf config root (dispatch expects)) =
  List.length (filter (fun e => match runTest config root (setTestDNS true e) with
                                | Some _ => true
                                | None => false
                                end) expects).
Proof.
  rewrite failuresOf_dispatch.
  induction expects as [|e expects IH]; [reflexivity|].
  simpl. destruct (runTest config root (setTestDNS true e)); simpl; rewrite IH; reflexivity.
Qed.


(** X14: the count that runTests receives is the number of expectations
    whose DNS trial fails, whatever the schedule and the number of
    workers; in particular "failed %d of %d tests" never names more
    failures than expectations, although two trials are dispatched for
    each. *)
Theorem failure_count_is_failing_expectations
    (numWorkers : nat) (config : configFile) (root : Certificate)
    (expects : list expectation)
    (sched : list goroutine) (tr : list event) (s : state) (k : nat) :
  0 < numWorkers ->
  run numWorkers config root sched (init numWorkers expects) = Some (tr, s) ->
  mainG s = MReturned k ->
  k = List.length (filter (fun e => match runTest config root (setTestDNS true e) with
                                    | Some _ => true
                                    | None => false
                                    end) expects) /\
  k <= List.length expects.
Proof.
  intros Hpos Hrun Hret.
  destruct (whole_run numWorkers config root expects sched tr s k Hpos Hrun Hret)
    as (_ & _ & _ & Hperm & ->).
  rewrite (Permutation_length Hperm), failuresOf_dispatch_length.
  split; [reflexivity | apply filter_length_le].
Qed.



(** A load error aborts the run before any goroutine is started:
    whatever the schedule and the number of CPUs, nothing is printed on
    standard output, the error is printed on standard error and the exit
    status is 1. The root is loaded first, then the configuration, then
    the expectations, and the first error is the one reported. *)
Theorem load_error_aborts_run (NumCPU : nat) (sched : list goroutine) :
  (forall e, loadRoot = inl e ->
     runTests NumCPU sched = Some ([], Some e) /\
     main NumCPU sched = Some (mkOutcome EmptyString (Error e ++ newline) 1)) /\
  (forall root e, loadRoot = inr root -> loadConfig = inl e ->
     runTests NumCPU sched = Some ([], Some e) /\
     main NumCPU sched = Some (mkOutcome EmptyString (Error e ++ newline) 1)) /\
  (forall root config e, loadRoot = inr root -> loadConfig = inr config ->
     loadExpectations = inl e ->
     runTests NumCPU sched = Some ([], Some e) /\
     main NumCPU sched = Some (mkOutcome EmptyString (Error e ++ newline) 1)).
Proof.
  unfold main, runTests. split; [|split].
  - intros e ->. split; reflexivity.
  - intros root e -> ->. split; reflexivity.
  - intros root config e -> -> ->. split; reflexivity.
Qed.

End Verdict.

(** * Properties of [readPEMChain] *)

Section ReadPEMChainProperties.
Variable Certificate : Type.
Context `{PEMLibrary Certificate}.
Variable ReadFile : string -> error + string.
Hypothesis Decode_consumes : PEM.Consuming Certificate.

Local Abbreviation readBlocks := (PEM.readBlocks Certificate).
Local Abbreviation parsesTo :=
  (fun (block : pem.Block) (cert : Certificate) =>
     ParseCertificate (pem.Bytes block) = inr cert).

(** With fuel above the length of the bytes, the loop stops by itself and
    more fuel changes neither its result nor the blocks found. *)
Lemma readBlocks_fuel (fuel fuel' : nat) (pemBytes : string) (certs : list Certificate) :
  String.length pemBytes < fuel -> String.length pemBytes < fuel' ->
  readBlocks fuel pemBytes certs = readBlocks fuel' pemBytes certs /\
  readBlocks fuel pemBytes certs <> None.
Proof.
  revert fuel' pemBytes certs.
  induction fuel as [|fuel IH]; intros fuel' pemBytes certs Hlt Hlt'; [lia|].
  destruct fuel' as [|fuel']; [lia|]. simpl.
  destruct (Decode pemBytes) as [[block rest]|] eqn:Hdec; [|split; [reflexivity|discriminate]].
  pose proof (Decode_consumes pemBytes block rest Hdec) as Hshort.
  destruct (pem.BlockType block =? "CERTIFICATE").
  - destruct (ParseCertificate (pem.Bytes block)); [split; [reflexivity|discriminate]|].
    apply IH; lia.
  - apply IH; lia.
Qed.

Lemma blocksOf_fuel (fuel fuel' : nat) (pemBytes : string) :
  String.length pemBytes < fuel -> String.length pemBytes < fuel' ->
  PEM.blocksOf Certificate fuel pemBytes = PEM.blocksOf Certificate fuel' pemBytes.
Proof.
  revert fuel' pemBytes.
  induction fuel as [|fuel IH]; intros fuel' pemBytes Hlt Hlt'; [lia|].
  destruct fuel' as [|fuel']; [lia|]. simpl.
  destruct (Decode pemBytes) as [[block rest]|] eqn:Hdec; [|reflexivity].
  pose proof (Decode_consumes pemBytes block rest Hdec) as Hshort.
  f_equal. apply IH; lia.
Qed.

(** What the loop returns, by the CERTIFICATE blocks it goes through. *)
Lemma readBlocks_spec (fuel : nat) (pemBytes : string) (certs : list Certificate) :
  String.length pemBytes < fuel ->
  exists r, readBlocks fuel pemBytes certs = Some r /\
    match r with
    | inr all =>
        exists new, all = certs ++ new /\
          Forall2 parsesTo
            (filter PEM.isCertificate (PEM.blocksOf Certificate fuel pemBytes)) new
    | inl e =>
        exists pre block post,
          filter PEM.isCertificate (PEM.blocksOf Certificate fuel pemBytes)
            = pre ++ block :: post /\
          Forall (fun b => exists cert, parsesTo b cert) pre /\
          ParseCertificate (pem.Bytes block) = inl e
    end.
Proof.
  revert pemBytes certs.
  induction fuel as [|fuel IH]; intros pemBytes certs Hlt; [lia|]. simpl.
  destruct (Decode pemBytes) as [[block rest]|] eqn:Hdec.
  2: { exists (inr certs). split; [reflexivity|]. exists []. rewrite app_nil_r.
       split; [reflexivity | constructor]. }
  pose proof (Decode_consumes pemBytes block rest Hdec) as Hshort.
  assert (Hfilter :
    filter PEM.isCertificate (block :: PEM.blocksOf Certificate fuel rest) =
    if pem.BlockType block =? "CERTIFICATE"
    then block :: filter PEM.isCertificate (PEM.blocksOf Certificate fuel rest)
    else filter PEM.isCertificate (PEM.blocksOf Certificate fuel rest))
    by reflexivity.
  rewrite Hfilter. clear Hfilter.
  destruct (pem.BlockType block =? "CERTIFICATE") eqn:Hty.
  - destruct (ParseCertificate (pem.Bytes block)) as [e|cert] eqn:Hparse.
    + exists (inl e). split; [reflexivity|].
      exists [], block, (filter PEM.isCertificate (PEM.blocksOf Certificate fuel rest)).
      split; [reflexivity|]. split; [constructor | exact Hparse].
    + destruct (IH rest (certs ++ [cert])) as (r & Hr & Hspec); [lia|].
      exists r. split; [exact Hr|]. destruct r as [e|all].
      * destruct Hspec as (pre & b & post & Heq & Hpre & Hb).
        exists (block :: pre), b, post. rewrite Heq. split; [reflexivity|].
        split; [|exact Hb]. constructor; [exists cert; exact Hparse | exact Hpre].
      * destruct Hspec as (new & -> & Hall).
        exists (cert :: new). rewrite <- app_assoc. split; [reflexivity|].
        constructor; assumption.
  - apply IH. lia.
Qed.

Lemma parsesTo_functional (blocks : list pem.Block) (l l' : list Certificate) :
  Forall2 parsesTo blocks l -> Forall2 parsesTo blocks l' -> l = l'.
Proof.
  intros Hl. revert l'. induction Hl as [|b c bs cs Hb _ IH]; intros l' Hl'.
  - inversion Hl'. reflexivity.
  - inversion Hl' as [|b' c' bs' cs' Hb' Hrest]; subst.
    rewrite Hb in Hb'. injection Hb' as ->. f_equal. apply IH. exact Hrest.
Qed.

Lemma parsesTo_no_error (pre post : list pem.Block) (block : pem.Block)
    (l : list Certificate) (e : error) :
  Forall2 parsesTo (pre ++ block :: post) l ->
  ParseCertificate (pem.Bytes block) = inl e -> False.
Proof.
  intros Hall Herr. apply Forall2_app_inv_l in Hall as (l1 & l2 & _ & Hrest & _).
  inversion Hrest as [|b c bs cs Hb _]; subst. rewrite Herr in Hb. discriminate.
Qed.

Lemma readPEMChain_total (path : string) :
  exists r, PEM.readPEMChain Certificate ReadFile path = Some r.
Proof.
  unfold PEM.readPEMChain.
  destruct (ReadFile path) as [e|pemBytes]; [eexists; reflexivity|].
  destruct (readBlocks_spec (S (String.length pemBytes)) pemBytes [])
    as (r & Hr & _); [lia|]. exists r. exact Hr.
Qed.

(** X17: readPEMChain returns for every path: the loop over the blocks
    of the file ends within the fuel it is given, and more fuel gives the
    same result. *)
Theorem readPEMChain_returns (path : string) :
  (exists r, PEM.readPEMChain Certificate ReadFile path = Some r) /\
  (forall pemBytes fuel, ReadFile path = inr pemBytes -> String.length pemBytes < fuel ->
     readBlocks fuel pemBytes [] = PEM.readPEMChain Certificate ReadFile path).
Proof.
  split; [apply readPEMChain_total|].
  unfold PEM.readPEMChain.
  intros pemBytes fuel -> Hlt. apply readBlocks_fuel; lia.
Qed.

Lemma readPEMChain_inr (path : string) (certs : list Certificate) :
  PEM.readPEMChain Certificate ReadFile path = Some (inr certs) <->
  exists pemBytes,
    ReadFile path = inr pemBytes /\
    Forall2 parsesTo (PEM.certificateBlocks Certificate pemBytes) certs.
Proof.
  unfold PEM.readPEMChain, PEM.certificateBlocks.
  destruct (ReadFile path) as [e|pemBytes].
  { split; [discriminate | intros (b & Hb & _); discriminate]. }
  destruct (readBlocks_spec (S (String.length pemBytes)) pemBytes [])
    as (r & Hr & Hspec); [lia|].
  rewrite Hr. split.
  - intros [= ->]. destruct Hspec as (new & -> & Hall).
    exists pemBytes. split; [reflexivity | exact Hall].
  - intros (b & [= <-] & Hall). f_equal. destruct r as [e|all].
    + destruct Hspec as (pre & block & post & Heq & _ & Herr).
      rewrite Heq in Hall. exfalso. exact (parsesTo_no_error _ _ _ _ _ Hall Herr).
    + destruct Hspec as (new & -> & Hall'). f_equal.
      apply (parsesTo_functional _ _ _ Hall' Hall).
Qed.

Lemma readPEMChain_inl (path : string) (e : error) :
  PEM.readPEMChain Certificate ReadFile path = Some (inl e) <->
  ReadFile path = inl e \/
  exists pemBytes pre block post,
    ReadFile path = inr pemBytes /\
    PEM.certificateBlocks Certificate pemBytes = pre ++ block :: post /\
    Forall (fun b => exists cert, parsesTo b cert) pre /\
    ParseCertificate (pem.Bytes block) = inl e.
Proof.
  unfold PEM.readPEMChain, PEM.certificateBlocks.
  destruct (ReadFile path) as [e0|pemBytes].
  { split; [intros [= ->]; left; reflexivity|].
    intros [[= ->]|(b & pre & block & post & Hb & _)]; [reflexivity | discriminate]. }
  destruct (readBlocks_spec (S (String.length pemBytes)) pemBytes [])
    as (r & Hr & Hspec); [lia|].
  rewrite Hr. split.
  - intros [= ->]. right. destruct Hspec as (pre & block & post & Heq & Hpre & Herr).
    exists pemBytes, pre, block, post. auto.
  - intros [Hread|(b & pre & block & post & [= <-] & Heq & Hpre & Herr)]; [discriminate|].
    f_equal. destruct r as [e'|all].
    + destruct Hspec as (pre' & block' & post' & Heq' & Hpre' & Herr').
      rewrite Heq in Heq'.
      assert (Hsame : pre = pre' /\ block = block').
      { clear - Heq' Hpre Herr Hpre' Herr'.
        revert pre' Heq' Hpre'. induction pre as [|x pre IH]; intros [|x' pre'] Heq' Hpre'.
        - injection Heq' as -> _. auto.
        - injection Heq' as -> _. inversion Hpre' as [|? ? [c Hc] _]; subst.
          rewrite Herr in Hc. discriminate.
        - injection Heq' as -> _. inversion Hpre as [|? ? [c Hc] _]; subst.
          rewrite Herr' in Hc. discriminate.
        - injection Heq' as -> Heq'. inversion Hpre; inversion Hpre'; subst.
          destruct (IH ltac:(assumption) pre' Heq' ltac:(assumption)) as [-> ->]. auto. }
      destruct Hsame as [_ <-]. rewrite Herr in Herr'. injection Herr' as ->. reflexivity.
    + destruct Hspec as (new & _ & Hall). rewrite Heq in Hall.
      exfalso. exact (parsesTo_no_error _ _ _ _ _ Hall Herr).
Qed.

(** X18: readPEMChain returns certificates exactly when the file can be
    read and every CERTIFICATE block of it parses; the certificates are
    then those of the CERTIFICATE blocks, one for each, in file order; the
    blocks of other types play no part, whether they would parse or not. *)
Theorem readPEMChain_certificates (path : string) (certs : list Certificate) :
  PEM.readPEMChain Certificate ReadFile path = Some (inr certs) <->
  exists pemBytes,
    ReadFile path = inr pemBytes /\
    Forall2 parsesTo (PEM.certificateBlocks Certificate pemBytes) certs.
Proof. apply readPEMChain_inr. Qed.

(** X19: readPEMChain returns an error, and no certificate at all, in two
    cases only: the error of ReadFile, or the error of the first
    CERTIFICATE block of the file that does not parse. *)
Theorem readPEMChain_error (path : string) (e : error) :
  PEM.readPEMChain Certificate ReadFile path = Some (inl e) <->
  ReadFile path = inl e \/
  exists pemBytes pre block post,
    ReadFile path = inr pemBytes /\
    PEM.certificateBlocks Certificate pemBytes = pre ++ block :: post /\
    Forall (fun b => exists cert, parsesTo b cert) pre /\
    ParseCertificate (pem.Bytes block) = inl e.
Proof. apply readPEMChain_inl. Qed.

End ReadPEMChainProperties.

(** * [readPEMChain] in [loadRoot] and in the trial *)

Section PEMPlatform.
Context `{Platform} `{PEMLibrary Certificate}.
Hypothesis Decode_consumes : PEM.Consuming Certificate.
Hypothesis reads_pem : ReadsPEM.

Lemma readPEMChain_platform_inr (path : string) (certs : list Certificate) :
  readPEMChain path = inr certs <->
  exists pemBytes,
    ReadFile path = inr pemBytes /\
    Forall2 (fun block cert => ParseCertificate (pem.Bytes block) = inr cert)
            (PEM.certificateBlocks Certificate pemBytes) certs.
Proof.
  rewrite <- (readPEMChain_inr Certificate ReadFile Decode_consumes path certs).
  rewrite (reads_pem path). split; [intros -> | intros [= ->]]; reflexivity.
Qed.

(** X20: loadRoot gives a root exactly when root.crt can be read and holds
    exactly one CERTIFICATE block, which parses to that root; blocks of
    other types around it do not count. *)
Theorem loadRoot_single_certificate_block (root : Certificate) :
  loadRoot = inr root <->
  exists pemBytes block,
    ReadFile (Join [baseDir; "certificates"; "root.crt"]) = inr pemBytes /\
    PEM.certificateBlocks Certificate pemBytes = [block] /\
    ParseCertificate (pem.Bytes block) = inr root.
Proof.
  unfold loadRoot. split.
  - destruct (readPEMChain _) as [e|chain] eqn:Hread; [discriminate|].
    destruct chain as [|root0 [|root1 chain]]; try discriminate.
    intros [= ->]. apply readPEMChain_platform_inr in Hread as (pemBytes & Hfile & Hall).
    inversion Hall as [|block c blocks cs Hb Hrest Hblocks]; subst.
    inversion Hrest; subst.
    exists pemBytes, block. auto.
  - intros (pemBytes & block & Hfile & Hblocks & Hparse).
    assert (Hread : readPEMChain (Join [baseDir; "certificates"; "root.crt"]) = inr [root]).
    { apply readPEMChain_platform_inr. exists pemBytes. split; [exact Hfile|].
      rewrite Hblocks. constructor; [exact Hparse | constructor]. }
    rewrite Hread. reflexivity.
Qed.

(** X21: when root.crt can be read and its CERTIFICATE blocks all parse
    but are not exactly one (none, for a file without PEM data), the
    process exits with status 1 and the message "Expected a single root in
    'root.pem' but found <their number>", without running any trial. *)
Theorem wrong_root_count_exits_1
    (pemBytes : string) (certs : list Certificate)
    (NumCPU : nat) (sched : list goroutine) :
  ReadFile (Join [baseDir; "certificates"; "root.crt"]) = inr pemBytes ->
  Forall2 (fun block cert => ParseCertificate (pem.Bytes block) = inr cert)
          (PEM.certificateBlocks Certificate pemBytes) certs ->
  List.length certs <> 1 ->
  List.length certs = List.length (PEM.certificateBlocks Certificate pemBytes) /\
  runTests NumCPU sched = Some ([], Some (ErrSingleRoot (List.length certs))) /\
  main NumCPU sched =
    Some (mkOutcome EmptyString
            ("Expected a single root in 'root.pem' but found "
             ++ Itoa (Z.of_nat (List.length certs)) ++ newline)%string
            1%Z).
Proof.
  intros Hfile Hall Hlen.
  split; [symmetry; exact (Forall2_length Hall)|].
  assert (Hread : readPEMChain (Join [baseDir; "certificates"; "root.crt"]) = inr certs).
  { apply readPEMChain_platform_inr. exists pemBytes. auto. }
  assert (Hroot : loadRoot = inl (ErrSingleRoot (List.length certs))).
  { unfold loadRoot. rewrite Hread.
    destruct certs as [|c0 [|c1 certs]]; [reflexivity | | reflexivity].
    exfalso. apply Hlen. reflexivity. }
  unfold main, runTests. rewrite Hroot. split; [reflexivity|].
  reflexivity.
Qed.

(** X22: a DNS trial whose chain loads and whose leaf file can be read
    but does not hold exactly one CERTIFICATE block, all of them parsing,
    is sent to failures with "expected a single certificate in the .crt
    file, but found <their number>": an empty leaf file fails the trial
    with 0, whatever the expectation. *)
Theorem wrong_leaf_count_fails_trial
    (config : configFile) (root : Certificate) (test : expectation)
    (chain leaf : list Certificate) (pemBytes : string) :
  testDNS test = true ->
  readPEMChain (Join [baseDir; "certificates"; (Itoa (Id test) ++ ".chain")%string])
    = inr chain ->
  ReadFile (Join [baseDir; "certificates"; (Itoa (Id test) ++ ".crt")%string])
    = inr pemBytes ->
  Forall2 (fun block cert => ParseCertificate (pem.Bytes block) = inr cert)
          (PEM.certificateBlocks Certificate pemBytes) leaf ->
  List.length (PEM.certificateBlocks Certificate pemBytes) <> 1 ->
  runTest config root test =
    Some (setErr (ErrSingleCertificate
                    (List.length (PEM.certificateBlocks Certificate pemBytes))) test).
Proof.
  intros Hdns Hchain Hfile Hall Hlen.
  assert (Hread : readPEMChain
            (Join [baseDir; "certificates"; (Itoa (Id test) ++ ".crt")%string]) = inr leaf).
  { apply readPEMChain_platform_inr. exists pemBytes. auto. }
  rewrite (Forall2_length Hall) in *.
  unfold runTest. rewrite Hdns, Hchain, Hread. simpl negb. cbv iota.
  destruct leaf as [|c0 [|c1 leaf]]; [reflexivity | | reflexivity].
  exfalso. apply Hlen. reflexivity.
Qed.

End PEMPlatform.

(** * The certificate files of a trial *)

Lemma append_cancel_l (a b c : string) : (a ++ b = a ++ c)%string -> b = c.
Proof.
  induction a as [|x a IH]; simpl; [auto|]. intros [= Heq]. auto.
Qed.

Lemma append_length (a b : string) :
  String.length (a ++ b) = String.length a + String.length b.
Proof. induction a as [|x a IH]; simpl; [reflexivity | rewrite IH; reflexivity]. Qed.

Lemma append_cancel_r (a b c : string) : (a ++ c = b ++ c)%string -> a = b.
Proof.
  revert b. induction a as [|x a IH]; intros [|y b] Heq; simpl in Heq.
  - reflexivity.
  - apply (f_equal String.length) in Heq. simpl in Heq.
    rewrite append_length in Heq. lia.
  - apply (f_equal String.length) in Heq. simpl in Heq.
    rewrite append_length in Heq. lia.
  - injection Heq as -> Heq. f_equal. apply IH. exact Heq.
Qed.

Lemma Itoa_inj (n m : Z) : Itoa n = Itoa m -> n = m.
Proof.
  unfold Itoa. intros Heq.
  assert (Hnn : forall z, Z.to_int z <> Decimal.Pos Decimal.Nil /\
                          Z.to_int z <> Decimal.Neg Decimal.Nil).
  { intros [|p|p]; simpl; split; try discriminate;
      intros [= Hp]; exact (DecimalPos.Unsigned.to_uint_nonnil p Hp). }
  apply (f_equal NilZero.int_of_string) in Heq.
  rewrite !NilZero.isi in Heq by apply Hnn.
  injection Heq as Heq. apply DecimalZ.to_int_inj. exact Heq.
Qed.

Lemma Itoa_not_root (n : Z) (suffix : string) :
  (Itoa n ++ suffix)%string <> "root.crt".
Proof.
  unfold Itoa, NilZero.string_of_int, NilZero.string_of_uint.
  destruct (Z.to_int n) as [u|u]; destruct u; simpl; discriminate.
Qed.

(** X23: trials of different ids read different files, and no trial reads
    the root file as its chain or leaf: the paths of the .chain file and of
    the .crt file determine the id, and neither is the path of root.crt. *)
Theorem certificate_paths_distinct (id1 id2 : Z) :
  (Join [baseDir; "certificates"; (Itoa id1 ++ ".chain")%string] =
   Join [baseDir; "certificates"; (Itoa id2 ++ ".chain")%string] -> id1 = id2) /\
  (Join [baseDir; "certificates"; (Itoa id1 ++ ".crt")%string] =
   Join [baseDir; "certificates"; (Itoa id2 ++ ".crt")%string] -> id1 = id2) /\
  Join [baseDir; "certificates"; (Itoa id1 ++ ".chain")%string] <>
    Join [baseDir; "certificates"; "root.crt"] /\
  Join [baseDir; "certificates"; (Itoa id1 ++ ".crt")%string] <>
    Join [baseDir; "certificates"; "root.crt"].
Proof.
  unfold Join, baseDir. simpl.
  repeat split.
  - intros [= Heq]. apply Itoa_inj. exact (append_cancel_r _ _ _ Heq).
  - intros [= Heq]. apply Itoa_inj. exact (append_cancel_r _ _ _ Heq).
  - intros [= Heq]. exact (Itoa_not_root _ _ Heq).
  - intros [= Heq]. exact (Itoa_not_root _ _ Heq).
Qed.

Lemma certificate_paths_distinct_witness : 7%Z = 7%Z.
Proof.
  apply (proj1 (certificate_paths_distinct 7 7)). reflexivity.
Defined.

(** * The properties above on the example platforms *)

Lemma exampleDecode_consumes : @PEM.Consuming string examplePEM.
Proof.
  intros pemBytes block rest. simpl. unfold exampleDecode.
  destruct pemBytes as [|t [|c tail]]; try discriminate.
  intros [= _ <-]. simpl. lia.
Qed.

Lemma filePlatformOf_reads_pem (files : string -> error + string) :
  @ReadsPEM (filePlatformOf files) examplePEM.
Proof.
  intros path. simpl.
  destruct (@readPEMChain_total string examplePEM files exampleDecode_consumes path)
    as [r Hr].
  rewrite Hr. reflexivity.
Qed.

Lemma failure_is_the_dns_trial_witness :
  testDNS (setTestDNS true expect8) = true /\
  testDNS (setTestDNS true expect8) = true /\
  Id (setTestDNS true expect8) = Id (setTestDNS true expect8) /\
  IP (setTestDNS true expect8) = IP (setTestDNS true expect8) /\
  DNS (setTestDNS true expect8) = DNS (setTestDNS true expect8) /\
  descriptions (setTestDNS true expect8) = descriptions (setTestDNS true expect8) /\
  (err (setTestDNS true expect8) = err (setTestDNS true expect8) \/
   exists e, err (setTestDNS true expect8) = Some e).
Proof.
  apply (@failure_is_the_dns_trial (examplePlatform true [expect8]) exampleConfig
           exampleRoot (setTestDNS true expect8) (setTestDNS true expect8)).
  vm_compute. reflexivity.
Defined.

Lemma infrastructure_error_fails_trial_witness :
  @runTest filePlatform exampleConfig "R" (setTestDNS true expect8)
    = Some (setErr (ErrSingleCertificate 2) (setTestDNS true expect8)) /\
  @runTest filePlatform exampleConfig "R" (setTestDNS true expect10)
    = Some (setErr (PlatformError
                      "open ../certificates/10.chain: no such file or directory")
                   (setTestDNS true expect10)).
Proof.
  split.
  - destruct (@infrastructure_error_fails_trial filePlatform exampleConfig "R"
                (setTestDNS true expect8) eq_refl) as (_ & _ & Hcount).
    apply (Hcount ["i"; "j"] ["L"; "M"]); [reflexivity | reflexivity | discriminate].
  - destruct (@infrastructure_error_fails_trial filePlatform exampleConfig "R"
                (setTestDNS true expect10) eq_refl) as (Hchain & _ & _).
    apply Hchain. reflexivity.
Defined.

Lemma trial_unreported_iff_match_witness :
  @runTest (examplePlatform true [expect7]) exampleConfig exampleRoot
           (setTestDNS true expect7) = None.
Proof.
  apply (proj2 (@trial_unreported_iff_match (examplePlatform true [expect7])
                  exampleConfig exampleRoot (setTestDNS true expect7)
                  [] "../certificates/7.crt" eq_refl eq_refl eq_refl)).
  left. split; reflexivity.
Defined.

Lemma failure_without_error_witness :
  setTestDNS true expect8 = setTestDNS true expect8 /\
  exists chain leaf0,
    @readPEMChain (examplePlatform true [expect8]) "../certificates/8.chain" = inr chain /\
    @readPEMChain (examplePlatform true [expect8]) "../certificates/8.crt" = inr [leaf0] /\
    mustSucceed "ERROR" [] = inr false /\
    @Verify (examplePlatform true [expect8]) leaf0 [exampleRoot] chain "example.com" = None.
Proof.
  apply (@failure_without_error (examplePlatform true [expect8]) exampleConfig
           exampleRoot (setTestDNS true expect8) (setTestDNS true expect8));
    reflexivity.
Defined.

Lemma steps_until_returned_witness :
  @canStep (examplePlatform true [expect8; expect10]) 2 exampleConfig exampleRoot
           (init 2 [expect8; expect10]).
Proof.
  apply (proj2 (@steps_until_returned (examplePlatform true [expect8; expect10])
                  2 exampleConfig exampleRoot [expect8; expect10] [] []
                  (init 2 [expect8; expect10]) ltac:(lia) eq_refl)).
  intros k. discriminate.
Defined.

Lemma schedule_length_bounded_witness :
  List.length scheduleTwoWorkers <= 10 * List.length [expect8; expect10] + 2 + 6.
Proof.
  eapply (@schedule_length_bounded (examplePlatform true [expect8; expect10])
            2 exampleConfig exampleRoot [expect8; expect10] scheduleTwoWorkers).
  cbv. reflexivity.
Defined.

Lemma partial_run_completes_witness :
  exists sched' tr' s' k,
    @run (examplePlatform true [expect8; expect10]) 2 exampleConfig exampleRoot
         ([GMain] ++ sched') (init 2 [expect8; expect10])
      = Some ([EvSendWork (setTestDNS false expect8)] ++ tr', s') /\
    mainG s' = MReturned k.
Proof.
  eapply (@partial_run_completes (examplePlatform true [expect8; expect10])
            2 exampleConfig exampleRoot [expect8; expect10] [GMain]).
  - lia.
  - cbv. reflexivity.
Defined.

Lemma failures_closed_after_all_sent_witness :
  exists tr s,
    @run (examplePlatform true [expect8; expect10]) 2 exampleConfig exampleRoot
         scheduleTwoWorkers (init 2 [expect8; expect10]) = Some (tr, s) /\
    closed (failures s) = true /\
    Permutation (sentFailures tr)
      (@failuresOf (examplePlatform true [expect8; expect10]) exampleConfig exampleRoot
         (dispatch [expect8; expect10])).
Proof.
  do 2 eexists. split; [cbv; reflexivity|]. split; [reflexivity|].
  edestruct (@failures_closed_after_all_sent (examplePlatform true [expect8; expect10])
               2 exampleConfig exampleRoot [expect8; expect10] scheduleTwoWorkers)
    as (_ & _ & Hsent & _).
  - lia.
  - cbv. reflexivity.
  - reflexivity.
  - exact Hsent.
Defined.

Lemma channels_are_fifo_witness :
  exists tr s,
    @run (examplePlatform true [expect8; expect10]) 2 exampleConfig exampleRoot
         [GMain; GMain; GWorker 0] (init 2 [expect8; expect10]) = Some (tr, s) /\
    dispatch [expect8; expect10]
      = receivedWork tr ++ buf (work s) ++ pendingOf (mainG s) /\
    receivedWork tr = [setTestDNS false expect8] /\
    buf (work s) = [setTestDNS true expect8].
Proof.
  do 2 eexists. split; [cbv; reflexivity|].
  split; [|split; reflexivity].
  eapply (proj1 (@channels_are_fifo (examplePlatform true [expect8; expect10])
                   2 exampleConfig exampleRoot [expect8; expect10]
                   [GMain; GMain; GWorker 0] _ _ _)).
  Unshelve. cbv. reflexivity.
Defined.

Lemma only_dns_failures_reported_witness :
  exists tr s,
    @run (examplePlatform true [expect8; expect10]) 2 exampleConfig exampleRoot
         scheduleTwoWorkers (init 2 [expect8; expect10]) = Some (tr, s) /\
    List.length (reported tr) = 2 /\
    Forall (fun f => testDNS f = true /\ testType f = "DNS") (reported tr).
Proof.
  do 2 eexists. split; [cbv; reflexivity|]. split; [reflexivity|].
  eapply (@only_dns_failures_reported (examplePlatform true [expect8; expect10])
            2 exampleConfig exampleRoot [expect8; expect10] scheduleTwoWorkers).
  cbv. reflexivity.
Defined.

Lemma failure_count_is_failing_expectations_witness :
  2 = List.length
        (filter (fun e =>
                   match @runTest (examplePlatform true [expect8; expect10])
                                  exampleConfig exampleRoot (setTestDNS true e) with
                   | Some _ => true
                   | None => false
                   end) [expect8; expect10]) /\
  2 <= List.length [expect8; expect10].
Proof.
  eapply (@failure_count_is_failing_expectations
            (examplePlatform true [expect8; expect10])
            2 exampleConfig exampleRoot [expect8; expect10] scheduleTwoWorkers).
  - lia.
  - cbv. reflexivity.
  - reflexivity.
Defined.




Lemma load_error_aborts_run_witness :
  @runTests unreadablePlatform 1 scheduleTwoWorkers =
    Some ([], Some (PlatformError
                      "open ../certificates/root.crt: no such file or directory")) /\
  @main unreadablePlatform 1 scheduleTwoWorkers =
    Some (mkOutcome EmptyString
            ("open ../certificates/root.crt: no such file or directory" ++ newline)%string
            1%Z).
Proof.
  destruct (@load_error_aborts_run unreadablePlatform 1 scheduleTwoWorkers)
    as (Hroot & _ & _).
  apply Hroot. reflexivity.
Defined.

Lemma readPEMChain_returns_witness :
  (exists r, @PEM.readPEMChain string examplePEM exampleFiles "../certificates/8.chain"
             = Some r) /\
  (forall pemBytes fuel,
     exampleFiles "../certificates/8.chain" = inr pemBytes ->
     String.length pemBytes < fuel ->
     @PEM.readBlocks string examplePEM fuel pemBytes [] =
     @PEM.readPEMChain string examplePEM exampleFiles "../certificates/8.chain").
Proof.
  apply (@readPEMChain_returns string examplePEM exampleFiles exampleDecode_consumes).
Defined.

Lemma readPEMChain_certificates_witness :
  @PEM.readPEMChain string examplePEM exampleFiles "../certificates/8.chain"
    = Some (inr ["i"; "j"]).
Proof.
  apply (proj2 (@readPEMChain_certificates string examplePEM exampleFiles
                  exampleDecode_consumes "../certificates/8.chain" ["i"; "j"])).
  exists "KkCiCj". split; [reflexivity|].
  repeat constructor.
Defined.

Lemma readPEMChain_error_witness :
  @PEM.readPEMChain string examplePEM exampleFiles "../certificates/9.crt"
    = Some (inl (PlatformError "x509: malformed certificate")).
Proof.
  apply (proj2 (@readPEMChain_error string examplePEM exampleFiles
                  exampleDecode_consumes "../certificates/9.crt"
                  (PlatformError "x509: malformed certificate"))).
  right. exists "KkC!CL", [], (pem.mkBlock "CERTIFICATE" "!"),
    [pem.mkBlock "CERTIFICATE" "L"].
  repeat split; constructor.
Defined.

Lemma loadRoot_single_certificate_block_witness :
  @loadRoot filePlatform = inr "R".
Proof.
  apply (proj2 (@loadRoot_single_certificate_block filePlatform examplePEM
                  exampleDecode_consumes (filePlatformOf_reads_pem exampleFiles) "R")).
  exists "CR", (pem.mkBlock "CERTIFICATE" "R"). repeat split.
Defined.

Lemma wrong_root_count_exits_1_witness :
  @main (filePlatformOf emptyFiles) 1 scheduleTwoWorkers =
    Some (mkOutcome EmptyString
            ("Expected a single root in 'root.pem' but found 0" ++ newline)%string
            1%Z).
Proof.
  destruct (@wrong_root_count_exits_1 (filePlatformOf emptyFiles) examplePEM
              exampleDecode_consumes (filePlatformOf_reads_pem emptyFiles)
              EmptyString [] 1 scheduleTwoWorkers eq_refl)
    as (_ & _ & Hmain).
  - constructor.
  - discriminate.
  - exact Hmain.
Defined.

Lemma wrong_leaf_count_fails_trial_witness :
  @runTest (filePlatformOf emptyFiles) exampleConfig "R" (setTestDNS true expect7)
    = Some (setErr (ErrSingleCertificate 0) (setTestDNS true expect7)).
Proof.
  apply (@wrong_leaf_count_fails_trial (filePlatformOf emptyFiles) examplePEM
           exampleDecode_consumes (filePlatformOf_reads_pem emptyFiles)
           exampleConfig "R" (setTestDNS true expect7) [] [] EmptyString).
  - reflexivity.
  - reflexivity.
  - reflexivity.
  - constructor.
  - discriminate.
Defined.
